(** * Email_Manager: a verification development for [GmailManager.py]

    The development embeds the [Email] class of [GmailManager.py] in Rocq
    and proves properties of its operations.

    Conventions of the embedding.
    - A Python [str] is a [string]; a Python [bytes] object is a [list byte].
      A [str] holding text outside ASCII is represented by its UTF-8 bytes,
      so [s.encode(...)] is [String.list_byte_of_string] and
      [b.decode('ascii', 'surrogateescape')] is [String.string_of_list_byte]
      (both directions are bijections, like the originals on this data).
    - A call that can raise returns an [outcome]: [Returned v] or [Raised e].
    - The parts of the Python standard library the class calls ([email],
      [smtplib], [imaplib], [base64]) are modelled next to the code that
      uses them; each model names the library function it follows. *)

From Stdlib Require Import Strings.Ascii Strings.Byte NArith ZArith Lia List.
From stdpp Require Import base gmap strings list pretty.

Local Open Scope N_scope.

(** ** Strings *)

Module PyStr.

(** [prefix p s]: [s.startswith(p)]. *)
Fixpoint prefix (p s : string) : bool :=
  match p, s with
  | "", _ => true
  | String a p', String b s' => if decide (a = b) then prefix p' s' else false
  | String _ _, "" => false
  end.

(** [contains q s]: the Python test [q in s] on two [str] values. *)
Fixpoint contains (q s : string) : bool :=
  prefix q s ||
  match s with
  | "" => false
  | String _ s' => contains q s'
  end.

(** ASCII case folding, as [str.lower] acts on the header names and
    tokens compared by the [email] package. *)
Definition lower_ascii (c : ascii) : ascii :=
  let n := N_of_ascii c in
  if (65 <=? n) && (n <=? 90) then ascii_of_N (n + 32) else c.

Fixpoint lower (s : string) : string :=
  match s with
  | "" => ""
  | String c s' => String (lower_ascii c) (lower s')
  end.

(** [sep.join(l)]. *)
Fixpoint join (sep : string) (l : list string) : string :=
  match l with
  | [] => ""
  | [x] => x
  | x :: xs => x +:+ sep +:+ join sep xs
  end.

(** [s.split(sep)] for a one-character separator: the pieces between the
    occurrences of [sep], never an empty list. *)
Fixpoint split_go (sep : ascii) (cur : string) (s : string) : list string :=
  match s with
  | "" => [String.rev cur]
  | String c s' =>
      if decide (c = sep) then String.rev cur :: split_go sep "" s'
      else split_go sep (String c cur) s'
  end.

Definition split (sep : ascii) (s : string) : list string := split_go sep "" s.

(** [l[-1]] on a list that [split] returned. *)
Definition last_piece (l : list string) : string := List.last l "".

(** [all(ord(c) < 128 for c in s)]: whether [s.encode('us-ascii')]
    succeeds. *)
Fixpoint is_ascii (s : string) : bool :=
  match s with
  | "" => true
  | String c s' => (N_of_ascii c <? 128) && is_ascii s'
  end.

(** [c in s] for a character [c]. *)
Fixpoint has_char (c : ascii) (s : string) : bool :=
  match s with
  | "" => false
  | String d s' => bool_decide (d = c) || has_char c s'
  end.

End PyStr.

(** ** Base64, as [binascii.b2a_base64] and [base64.b64decode] *)

Module Base64.

Definition b64_char (n : N) : ascii :=
  if n <? 26 then ascii_of_N (65 + n)
  else if n <? 52 then ascii_of_N (97 + (n - 26))
  else if n <? 62 then ascii_of_N (48 + (n - 52))
  else if n =? 62 then "+"%char else "/"%char.

Definition b64_index (c : ascii) : option N :=
  let n := N_of_ascii c in
  if (65 <=? n) && (n <=? 90) then Some (n - 65)
  else if (97 <=? n) && (n <=? 122) then Some (n - 97 + 26)
  else if (48 <=? n) && (n <=? 57) then Some (n - 48 + 52)
  else if n =? 43 then Some 62
  else if n =? 47 then Some 63
  else None.

Definition byte_of_N (n : N) : byte := default x00 (Byte.of_N n).

(** The 24-bit group of three input bytes. *)
Definition group (a b c : byte) : N :=
  65536 * Byte.to_N a + 256 * Byte.to_N b + Byte.to_N c.

(** The 24-bit group carried by four alphabet positions. *)
Definition ungroup (i0 i1 i2 i3 : N) : N :=
  262144 * i0 + 4096 * i1 + 64 * i2 + i3.

Definition sextet (k : N) (g : N) : ascii := b64_char ((g / 64 ^ k) mod 64).

(** The encoding without the newline that [b2a_base64] appends. *)
Fixpoint b64encode (bs : list byte) : string :=
  match bs with
  | [] => ""
  | [a] =>
      let g := group a x00 x00 in
      String (sextet 3 g) (String (sextet 2 g) "==")
  | [a; b] =>
      let g := group a b x00 in
      String (sextet 3 g) (String (sextet 2 g) (String (sextet 1 g) "="))
  | a :: b :: c :: rest =>
      let g := group a b c in
      String (sextet 3 g) (String (sextet 2 g)
        (String (sextet 1 g) (String (sextet 0 g) (b64encode rest))))
  end.

Definition NL : string := String "010" "".

Definition b2a_base64 (bs : list byte) : string := b64encode bs +:+ NL.

(** [email.base64mime.body_encode] and [base64.encodebytes]: the input is
    cut into slices of 57 bytes, each encoded as one line of 76 characters
    (the last one may be shorter) ending in a newline. *)
Fixpoint encode_lines (fuel : nat) (bs : list byte) : string :=
  match fuel with
  | O => ""
  | S fuel' =>
      match bs with
      | [] => ""
      | _ => b2a_base64 (take 57 bs) +:+ encode_lines fuel' (drop 57 bs)
      end
  end.

Definition body_encode (bs : list byte) : string :=
  encode_lines (length bs) bs.

(** Strict decoding: a sequence of four-character groups over the
    alphabet, the last of which may be padded with one or two [=].
    [None] stands for every input on which the library reports a defect. *)
Definition decode_full (c0 c1 c2 c3 : ascii) : option (list byte) :=
  i0 ← b64_index c0; i1 ← b64_index c1;
  i2 ← b64_index c2; i3 ← b64_index c3;
  let g := ungroup i0 i1 i2 i3 in
  Some [byte_of_N (g / 65536); byte_of_N ((g / 256) mod 256);
        byte_of_N (g mod 256)].

Definition decode_last (c0 c1 c2 c3 : ascii) : option (list byte) :=
  if decide (c3 = "="%char) then
    if decide (c2 = "="%char) then
      i0 ← b64_index c0; i1 ← b64_index c1;
      let g := ungroup i0 i1 0 0 in
      Some [byte_of_N (g / 65536)]
    else
      i0 ← b64_index c0; i1 ← b64_index c1; i2 ← b64_index c2;
      let g := ungroup i0 i1 i2 0 in
      Some [byte_of_N (g / 65536); byte_of_N ((g / 256) mod 256)]
  else decode_full c0 c1 c2 c3.

Fixpoint b64decode (s : string) : option (list byte) :=
  match s with
  | "" => Some []
  | String c0 (String c1 (String c2 (String c3 rest))) =>
      match rest with
      | "" => decode_last c0 c1 c2 c3
      | _ => hd ← decode_full c0 c1 c2 c3; tl ← b64decode rest; Some (hd ++ tl)
      end
  | _ => None
  end.

(** [b''.join(b.splitlines())]: the text with its line breaks removed. *)
Fixpoint join_splitlines (s : string) : string :=
  match s with
  | "" => ""
  | String c s' =>
      if decide (c = "010"%char) then join_splitlines s'
      else if decide (c = "013"%char) then join_splitlines s'
      else String c (join_splitlines s')
  end.

(** The positions of the alphabet. *)
Definition sextets : list N := N.of_nat <$> seq 0 64.

End Base64.

Local Close Scope N_scope.

(** ** Outcomes of Python calls *)

(** The exceptions the class can meet. All of them derive from Python's
    [Exception]; interpreter exits ([KeyboardInterrupt], [SystemExit]) are
    outside the embedding. *)
Inductive exn : Type :=
| OSError (descr : string)
| UnicodeEncodeError (descr : string)
| TypeError (descr : string)
| IndexError (descr : string)
| SMTPServerDisconnected (descr : string)
| SMTPResponseException (code : Z) (resp : string)
| SMTPSenderRefused (code : Z) (resp : string) (sender : string)
| SMTPRecipientsRefused (recipients : list (string * (Z * string)))
| SMTPDataError (code : Z) (resp : string)
| IMAPError (descr : string)
| AttributeError (descr : string)
| OtherException (descr : string).

Inductive outcome (A : Type) : Type :=
| Returned (v : A)
| Raised (e : exn).

Arguments Returned {A} v.
Arguments Raised {A} e.

(** Calls that talk to a server thread the state [S] of the connection and
    of the world behind it. *)
Definition io (S A : Type) : Type := S → S * outcome A.

Definition io_ret {S A} (v : A) : io S A := λ st, (st, Returned v).

Definition io_raise {S A} (e : exn) : io S A := λ st, (st, Raised e).

Definition io_lift {S A} (r : outcome A) : io S A := λ st, (st, r).

Definition io_bind {S A B} (k : A → io S B) (m : io S A) : io S B :=
  λ st, match m st with
        | (st', Returned v) => k v st'
        | (st', Raised e) => (st', Raised e)
        end.

(** [try: m except Exception as e: h e]. *)
Definition io_catch {S A} (m : io S A) (h : exn → io S A) : io S A :=
  λ st, match m st with
        | (st', Raised e) => h e st'
        | r => r
        end.

(** [with enter as x: body x], where [exit] is the context manager's
    [__exit__] and returns nothing: it runs on every way out of the body,
    an exception of the body is raised again after it, and an exception
    of [exit] itself replaces whatever the body did. *)
Definition io_with {S R A} (enter : io S R) (exit : R → io S unit)
    (body : R → io S A) : io S A :=
  io_bind (λ x st,
    match body x st with
    | (st1, Returned v) =>
        match exit x st1 with
        | (st2, Returned _) => (st2, Returned v)
        | (st2, Raised e') => (st2, Raised e')
        end
    | (st1, Raised e) =>
        match exit x st1 with
        | (st2, Returned _) => (st2, Raised e)
        | (st2, Raised e') => (st2, Raised e')
        end
    end) enter.

#[global] Instance io_mret {S} : MRet (io S) := λ A, io_ret.
#[global] Instance io_mbind {S} : MBind (io S) := λ A B, io_bind.

(** A Python [for] loop whose body may raise, threading the loop's
    variables as [acc]. *)
Fixpoint io_for {S A B} (l : list A) (body : B → A → io S B) (acc : B)
    : io S B :=
  match l with
  | [] => mret acc
  | x :: l' => acc' ← body acc x; io_for l' body acc'
  end.

(** ** Messages, as [email.message.Message] *)

(** A message is its header list, in order and with repetitions, and a
    payload that is either a text or the list of its sub-parts
    ([is_multipart] is the test [isinstance(self._payload, list)]). These
    are the messages that the parser and [send_email] produce; a [Message]
    made by hand whose payload was never set (it is [None]) is not one of
    them. The text of a leaf is held as the bytes of the body. *)
#[warnings="-register-all"]
Inductive message : Type :=
| Leaf (hdrs : list (string * string)) (payload : string)
| Container (hdrs : list (string * string)) (parts : list message).

(** What [get_payload()] returns: a [str] or a [list] of messages. *)
Inductive payload_value : Type :=
| PStr (s : string)
| PList (l : list message).

(** The library functions that are taken as given. *)
Record email_lib : Type := EmailLib {
  (** [quopri.decodestring] *)
  quopri_decodestring : list byte → list byte;
  (** [_decode_uu], with the fall-back to the undecoded bytes *)
  decode_uu : list byte → list byte;
  (** what [decode_b] recovers from base64 text with defects *)
  decode_b_defective : string → list byte;
  (** [Message.get_content_maintype] *)
  get_content_maintype : message → string;
  (** [Message.get_filename] *)
  get_filename : message → option string;
  (** [Message.as_string] *)
  as_string : message → outcome string;
  (** [str(e)] on an exception *)
  str_exn : exn → string
}.

Module Msg.

Definition headers (m : message) : list (string * string) :=
  match m with Leaf h _ | Container h _ => h end.

Definition is_multipart (m : message) : bool :=
  match m with Leaf _ _ => false | Container _ _ => true end.

(** [Message.get(name)] and [Message.__getitem__]: the first header whose
    name matches without regard to case, [None] when there is none. *)
Definition get (m : message) (name : string) : option string :=
  let name := PyStr.lower name in
  snd <$> List.find (λ kv, bool_decide (PyStr.lower kv.1 = name)) (headers m).

(** [Message.__setitem__] and [add_header] without parameters: the header
    is appended. *)
Definition setitem (m : message) (name val : string) : message :=
  match m with
  | Leaf h p => Leaf (h ++ [(name, val)]) p
  | Container h ps => Container (h ++ [(name, val)]) ps
  end.

(** [Message.items()] *)
Definition items (m : message) : list (string * string) := headers m.

(** [Message.get_payload()] on a message whose payload is a list or a
    text of 7-bit characters: the payload as it is stored. (For a text
    with 8-bit bytes the library returns these bytes decoded after the
    charset of the message, which is not computed here: the statements on
    such a payload are restricted to 7-bit texts or do not depend on the
    text.) *)
Definition get_payload (m : message) : payload_value :=
  match m with Leaf _ p => PStr p | Container _ ps => PList ps end.

(** [Message.get_payload(i)] on an integer [i ≥ 0]. *)
Definition get_payload_at (m : message) (i : nat) : outcome message :=
  match m with
  | Container _ ps =>
      match ps !! i with
      | Some p => Returned p
      | None => Raised (IndexError "list index out of range")
      end
  | Leaf _ _ => Raised (TypeError "Expected list, got <class 'str'>")
  end.

(** [Message.get_payload(None, True)]: [None] on a multipart message, the
    text payload decoded after the [Content-Transfer-Encoding] of the
    message otherwise. *)
Definition get_payload_decoded (L : email_lib) (m : message)
    : option (list byte) :=
  match m with
  | Container _ _ => None
  | Leaf _ payload =>
      let cte := PyStr.lower (default "" (get m "content-transfer-encoding")) in
      let bpayload := String.list_byte_of_string payload in
      Some (if decide (cte = "quoted-printable") then
              quopri_decodestring L bpayload
            else if decide (cte = "base64") then
              match Base64.b64decode (Base64.join_splitlines payload) with
              | Some v => v
              | None => decode_b_defective L payload
              end
            else if bool_decide (cte ∈ ["x-uuencode"; "uuencode"; "uue"; "x-uue"])
            then decode_uu L bpayload
            else bpayload)
  end.

(** [Message.set_payload(payload)] without a charset. *)
Definition set_payload (m : message) (payload : string) : message :=
  Leaf (headers m) payload.

(** [Message.attach(part)] *)
Definition attach (m part : message) : outcome message :=
  match m with
  | Container h ps => Returned (Container h (ps ++ [part]))
  | Leaf _ _ =>
      Raised (TypeError
        "Attach is not valid on a message with a non-multipart payload")
  end.

(** [Message.walk()]: the message, then the walk of each sub-part in
    order. *)
Fixpoint walk (m : message) : list message :=
  m :: match m with
       | Leaf _ _ => []
       | Container _ ps => (fix walks (l : list message) : list message :=
                              match l with
                              | [] => []
                              | p :: l' => walk p ++ walks l'
                              end) ps
       end.

Definition dquote : string := String "034" "".

(** [MIMEMultipart()] *)
Definition MIMEMultipart : message :=
  Container [("Content-Type", "multipart/mixed"); ("MIME-Version", "1.0")] [].

(** [MIMEText(text, "plain")]: the charset is us-ascii when the text
    encodes in it and utf-8 otherwise; the payload is kept as it is (7bit)
    in the first case and base64-encoded in the second. *)
Definition MIMEText (text : string) : message :=
  if PyStr.is_ascii text then
    Leaf [("Content-Type",
           "text/plain; charset=" +:+ dquote +:+ "us-ascii" +:+ dquote);
          ("MIME-Version", "1.0");
          ("Content-Transfer-Encoding", "7bit")] text
  else
    Leaf [("Content-Type",
           "text/plain; charset=" +:+ dquote +:+ "utf-8" +:+ dquote);
          ("MIME-Version", "1.0");
          ("Content-Transfer-Encoding", "base64")]
         (Base64.body_encode (String.list_byte_of_string text)).

(** [MIMEBase(maintype, subtype)] followed by [set_payload(data)] with
    [data] a [bytes] object. *)
Definition MIMEBase (maintype subtype : string) (data : list byte) : message :=
  Leaf [("Content-Type", maintype +:+ "/" +:+ subtype); ("MIME-Version", "1.0")]
       (String.string_of_list_byte data).

(** [encoders.encode_base64(part)] *)
Definition encode_base64 (L : email_lib) (part : message) : outcome message :=
  match get_payload_decoded L part with
  | Some orig =>
      Returned (setitem (set_payload part (Base64.body_encode orig))
                        "Content-Transfer-Encoding" "base64")
  | None => Raised (TypeError "expected bytes-like object, not NoneType")
  end.

End Msg.

(** ** The submission session, as [smtplib.SMTP] *)

(** The commands of a session, each answered by the server behind the
    connection state [S]: the answer is a reply [(code, text)] or an
    exception of the transport. *)
Record smtp_ops (S : Type) : Type := SmtpOps {
  (** [smtplib.SMTP(host)]: connect and read the greeting *)
  smtp_open : string → io S unit;
  (** [SMTP.login(user, password)] *)
  smtp_login : string → option string → io S unit;
  (** [SMTP.ehlo_or_helo_if_needed()] *)
  smtp_ehlo : io S unit;
  (** [SMTP.mail(sender)] *)
  smtp_mail : string → io S (Z * string);
  (** [SMTP.rcpt(recipient)] *)
  smtp_rcpt : string → io S (Z * string);
  (** [SMTP.rset()] *)
  smtp_rset : io S (Z * string);
  (** [SMTP.data(msg)] *)
  smtp_data : string → io S (Z * string);
  (** [SMTP.docmd("QUIT")] *)
  smtp_quit : io S (Z * string);
  (** [SMTP.close()], which does not raise *)
  smtp_close : S → S
}.

Arguments smtp_open {S}.
Arguments smtp_login {S}.
Arguments smtp_ehlo {S}.
Arguments smtp_mail {S}.
Arguments smtp_rcpt {S}.
Arguments smtp_rset {S}.
Arguments smtp_data {S}.
Arguments smtp_quit {S}.
Arguments smtp_close {S}.

Module Smtp.

Section Session.
Context {S : Type} (srv : smtp_ops S).

Definition close : io S unit := λ st, (smtp_close srv st, Returned ()).

(** [SMTP._rset]: a reset that ignores a disconnected server. *)
Definition _rset : io S unit :=
  io_catch (_ ← smtp_rset srv; mret ())
           (λ e, match e with
                 | SMTPServerDisconnected _ => mret ()
                 | _ => io_raise e
                 end).

(** [SMTP.__exit__] *)
Definition exit (_ : unit) : io S unit :=
  λ st,
    let '(st1, r) :=
      io_catch ('(code, message) ← smtp_quit srv;
                if decide (code ≠ 221%Z)
                then io_raise (SMTPResponseException code message)
                else mret ())
               (λ e, match e with
                     | SMTPServerDisconnected _ => mret ()
                     | _ => io_raise e
                     end) st in
    (smtp_close srv st1, r).

(** [senderrs[each] = (code, resp)] on the dictionary of refused
    recipients, kept in insertion order. *)
Fixpoint dict_set (d : list (string * (Z * string))) (k : string)
    (v : Z * string) : list (string * (Z * string)) :=
  match d with
  | [] => [(k, v)]
  | (k', v') :: d' =>
      if decide (k' = k) then (k, v) :: d' else (k', v') :: dict_set d' k v
  end.

(** [_fix_eols]: every line ending becomes CRLF. *)
Fixpoint _fix_eols (s : string) : string :=
  match s with
  | "" => ""
  | String c s' =>
      if decide (c = "013"%char) then
        match s' with
        | String "010" s'' => String "013" (String "010" (_fix_eols s''))
        | _ => String "013" (String "010" (_fix_eols s'))
        end
      else if decide (c = "010"%char) then
        String "013" (String "010" (_fix_eols s'))
      else String c (_fix_eols s')
  end.

(** The loop of [sendmail] over the recipients. *)
Definition rcpt_step (senderrs : list (string * (Z * string))) (each : string)
    : io S (list (string * (Z * string))) :=
  '(code, resp) ← smtp_rcpt srv each;
  let senderrs :=
    if decide (code ≠ 250%Z ∧ code ≠ 251%Z)
    then dict_set senderrs each (code, resp) else senderrs in
  if decide (code = 421%Z)
  then _ ← close; io_raise (SMTPRecipientsRefused senderrs)
  else mret senderrs.

(** [SMTP.sendmail(from_addr, to_addrs, msg)] with [to_addrs] a list and
    [msg] a [str], after [smtplib.py]: EHLO if needed, the message made
    ASCII bytes with CRLF line ends, MAIL, one RCPT for each recipient,
    then the test [len(senderrs) == len(to_addrs)] that raises
    [SMTPRecipientsRefused] when every recipient was refused, then DATA. *)
Definition sendmail (from_addr : string) (to_addrs : list string)
    (msg : string) : io S (list (string * (Z * string))) :=
  _ ← smtp_ehlo srv;
  msg ← (if PyStr.is_ascii (_fix_eols msg)
         then mret (_fix_eols msg)
         else io_raise (UnicodeEncodeError
                          "'ascii' codec can't encode character"));
  '(code, resp) ← smtp_mail srv from_addr;
  if decide (code ≠ 250%Z) then
    _ ← (if decide (code = 421%Z) then close else _rset);
    io_raise (SMTPSenderRefused code resp from_addr)
  else
    senderrs ← io_for to_addrs rcpt_step [];
    if decide (length senderrs = length to_addrs) then
      _ ← _rset;
      io_raise (SMTPRecipientsRefused senderrs)
    else
      '(code, resp) ← smtp_data srv msg;
      if decide (code ≠ 250%Z) then
        _ ← (if decide (code = 421%Z) then close else _rset);
        io_raise (SMTPDataError code resp)
      else mret senderrs.

End Session.

End Smtp.

(** ** The mailbox session, as [imaplib.IMAP4_SSL] *)

Record imap_ops (S Id Raw : Type) : Type := ImapOps {
  (** [imaplib.IMAP4_SSL(host)] *)
  imap_open : string → io S unit;
  (** [IMAP4.login(user, password)] *)
  imap_login : string → option string → io S unit;
  (** [IMAP4.select(mailbox)] *)
  imap_select : string → io S unit;
  (** [IMAP4.search(None, criterion)], then [data[0].split()] *)
  imap_search : string → io S (list Id);
  (** [IMAP4.fetch(id, "(RFC822)")], then [email_data[0][1]] *)
  imap_fetch : Id → io S Raw;
  (** [IMAP4.logout()] *)
  imap_logout : io S unit
}.

Arguments imap_open {S Id Raw}.
Arguments imap_login {S Id Raw}.
Arguments imap_select {S Id Raw}.
Arguments imap_search {S Id Raw}.
Arguments imap_fetch {S Id Raw}.
Arguments imap_logout {S Id Raw}.

Module Imap.

(** [IMAP4.__exit__]: log out, ignoring an [OSError]. *)
Definition exit {S Id Raw} (srv : imap_ops S Id Raw) (_ : unit) : io S unit :=
  io_catch (imap_logout srv)
           (λ e, match e with OSError _ => mret () | _ => io_raise e end).

(** A server that holds the inbox [M1..Mn] as its state, accepts the
    session, numbers the messages [1..n] and answers the search for ALL
    with all of them in that order. The state is the content of the
    inbox; the flags of the messages are not part of it. *)
Definition inbox_ops {Raw : Type} : imap_ops (list Raw) nat Raw := {|
  imap_open _ := mret ();
  imap_login _ _ := mret ();
  imap_select _ := mret ();
  imap_search criterion := λ mbox,
    (mbox, if decide (criterion = "ALL")
           then Returned (seq 1 (length mbox))
           else Raised (IMAPError "SEARCH command error: BAD"));
  imap_fetch i := λ mbox,
    (mbox, match i with
           | O => Raised (IMAPError "FETCH command error: BAD")
           | S j => match mbox !! j with
                    | Some raw => Returned raw
                    | None => Raised (IMAPError "FETCH command error: BAD")
                    end
           end);
  imap_logout := mret ()
|}.

End Imap.

(** ** The class [Email] *)

Record Email : Type := mkEmail {
  sender_email : string;
  sender_password : option string;
  smtp_server : string
}.

#[global] Instance outcome_mret : MRet outcome := λ A, Returned.
#[global] Instance outcome_mbind : MBind outcome := λ A B k r,
  match r with Returned v => k v | Raised e => Raised e end.

(** [Email.__init__]: the password comes from the process environment. *)
Definition Email_init (environ : gmap string string)
    (sender_email smtp_server : string) : Email :=
  {| sender_email := sender_email;
     sender_password := environ !! "EMAIL_PASSWORD";
     smtp_server := smtp_server |}.

(** The truth value of an optional [str] argument. *)
Definition truthy (s : option string) : bool :=
  match s with
  | Some s => negb (bool_decide (s = ""))
  | None => false
  end.

Section Send.
Context (L : email_lib).
(** [open(path, "rb")] followed by [read()]: the bytes of the file, or the
    [OSError] of the file system. *)
Context (fs : string → outcome (list byte)).
Context {S : Type} (srv : smtp_ops S).

(** Lines 47-56: the attachment part. *)
Definition attachment_part (attachment : string) : outcome message :=
  data ← fs attachment;
  let part := Msg.MIMEBase "application" "octet-stream" data in
  part ← Msg.encode_base64 L part;
  mret (Msg.setitem part "Content-Disposition"
          ("attachment; filename= "
           +:+ PyStr.last_piece (PyStr.split "/" attachment))).

(** Lines 40-56: the message [send_email] builds before it opens the
    session. *)
Definition build_message (self : Email) (recipient_emails : list string)
    (subject body : string) (attachment : option string) : outcome message :=
  let message := Msg.MIMEMultipart in
  let message := Msg.setitem message "From" (sender_email self) in
  let message := Msg.setitem message "To" (PyStr.join ", " recipient_emails) in
  let message := Msg.setitem message "Subject" subject in
  message ← Msg.attach message (Msg.MIMEText body);
  if truthy attachment then
    part ← attachment_part (default "" attachment);
    Msg.attach message part
  else mret message.

(** Lines 59-61: the session. *)
Definition submit (self : Email) (recipient_emails : list string)
    (message : message) : io S unit :=
  io_with (smtp_open srv (smtp_server self)) (Smtp.exit srv) (λ _,
    _ ← smtp_login srv (sender_email self) (sender_password self);
    text ← io_lift (as_string L message);
    _ ← Smtp.sendmail srv (sender_email self) recipient_emails text;
    mret ()).

Definition send_email (self : Email) (recipient_emails : list string)
    (subject body : string) (attachment : option string) : io S string :=
  message ← io_lift (build_message self recipient_emails subject body
                                   attachment);
  io_catch
    (_ ← submit self recipient_emails message;
     mret "Email sent successfully.")
    (λ e, mret ("Failed to send email. Error: " +:+ str_exn L e)).

End Send.

Section Search.
Context {S Id Raw : Type} (srv : imap_ops S Id Raw).
(** [email.message_from_bytes] *)
Context (message_from_bytes : Raw → message).

(** [body in payload] where [payload] is what [get_payload()] returned: the
    substring test on a [str]; on a [list] of parts the membership test,
    which no [str] passes because it compares the [str] with the parts. *)
Definition body_in (body : string) (payload : payload_value) : bool :=
  match payload with
  | PStr s => PyStr.contains body s
  | PList _ => false
  end.

(** [date in email_message["Date"]] on a message that
    [message_from_bytes] returned: the substring test on the value of the
    header. It raises when there is no such header (the value is [None])
    and when the value holds a byte outside ASCII (the library hands it
    out as a [Header] object, which has no membership test). *)
Definition date_in (date : string) (header : option string) : outcome bool :=
  match header with
  | Some d =>
      if PyStr.is_ascii d then Returned (PyStr.contains date d)
      else Raised (TypeError "argument of type 'Header' is not iterable")
  | None => Raised (TypeError "argument of type 'NoneType' is not iterable")
  end.

(** Lines 108-112: the body of the loop of [get_emails_by_body]. *)
Definition by_body_step (body : string) (emails : list message)
    (email_id : Id) : io S (list message) :=
  raw_email ← imap_fetch srv email_id;
  let email_message := message_from_bytes raw_email in
  if body_in body (Msg.get_payload email_message)
  then mret (emails ++ [email_message])
  else mret emails.

Definition get_emails_by_body (self : Email) (body : string)
    : io S (list message) :=
  io_with (imap_open srv (smtp_server self)) (Imap.exit srv) (λ _,
    _ ← imap_login srv (sender_email self) (sender_password self);
    _ ← imap_select srv "inbox";
    email_ids ← imap_search srv "ALL";
    io_for email_ids (by_body_step body) []).

(** Lines 133-137: the body of the loop of [get_emails_by_date]. *)
Definition by_date_step (date : string) (emails : list message)
    (email_id : Id) : io S (list message) :=
  raw_email ← imap_fetch srv email_id;
  let email_message := message_from_bytes raw_email in
  found ← io_lift (date_in date (Msg.get email_message "Date"));
  if found : bool
  then mret (emails ++ [email_message])
  else mret emails.

Definition get_emails_by_date (self : Email) (date : string)
    : io S (list message) :=
  io_with (imap_open srv (smtp_server self)) (Imap.exit srv) (λ _,
    _ ← imap_login srv (sender_email self) (sender_password self);
    _ ← imap_select srv "inbox";
    email_ids ← imap_search srv "ALL";
    io_for email_ids (by_date_step date) []).

End Search.

Section Helpers.
Context (L : email_lib).

Definition get_attachments (email : message) : list message :=
  foldl (λ attachments part,
           if decide (get_content_maintype L part = "multipart") then attachments
           else if decide (Msg.get part "Content-Disposition" = None)
           then attachments
           else
             let file_name := get_filename L part in
             if truthy file_name then attachments ++ [part] else attachments)
        [] (Msg.walk email).

(** The recursion is on the first sub-part, which [get_payload(0)] returns;
    [get_email_body_unfold] below states the body as the source has it. *)
Fixpoint get_email_body (email : message) : outcome (option (list byte)) :=
  match email with
  | Container _ parts =>
      match parts with
      | part :: _ => get_email_body part
      | [] => Raised (IndexError "list index out of range")
      end
  | Leaf _ _ => Returned (Msg.get_payload_decoded L email)
  end.

Definition get_email_subject (email : message) : option string :=
  Msg.get email "Subject".

Definition get_email_sender (email : message) : option string :=
  Msg.get email "From".

Definition get_email_recipient (email : message) : option string :=
  Msg.get email "To".

Definition get_email_date (email : message) : option string :=
  Msg.get email "Date".

Definition get_email_content (email : message) : payload_value :=
  Msg.get_payload email.

(** [dict(email.items())]: the pairs are entered in order, a later pair
    with a key already present replaces its value. *)
Definition get_email_headers (email : message) : gmap string string :=
  foldl (λ d kv, <[kv.1 := kv.2]> d) ∅ (Msg.items email).

End Helpers.

(** ** An instance of the library and of the servers, to run examples *)

Module Sample.

Definition lstrip : string → string :=
  fix go (s : string) : string :=
    match s with
    | String c s' => if Ascii.is_space c then go s' else s
    | "" => ""
    end.

(** [str.strip()] on ASCII white space. *)
Definition strip (s : string) : string :=
  String.rev (lstrip (String.rev (lstrip s))).

(** [s.replace(ab, r)] for a pattern [ab] of two characters. *)
Fixpoint replace2 (a b : ascii) (r : string) (s : string) : string :=
  match s with
  | String c ((String d s'') as s') =>
      if decide (c = a ∧ d = b) then r +:+ replace2 a b r s''
      else String c (replace2 a b r s')
  | _ => s
  end.

Definition backslash : ascii := "092"%char.
Definition dq : ascii := "034"%char.

(** [email.utils.unquote] *)
Definition unquote (s : string) : string :=
  match s, String.rev s with
  | String c s', String d r' =>
      if decide (c = dq ∧ d = dq ∧ s' ≠ "") then
        replace2 backslash dq (String dq "")
          (replace2 backslash backslash (String backslash "")
             (String.rev (match String.rev s' with String _ t => t | "" => "" end)))
      else if decide (c = "<"%char ∧ d = ">"%char ∧ s' ≠ "") then
        String.rev (match String.rev s' with String _ t => t | "" => "" end)
      else s
  | _, _ => s
  end.

(** [get_content_type().split('/')[0]], the default type being
    text/plain. *)
Definition content_maintype (m : message) : string :=
  match Msg.get m "content-type" with
  | None => "text"
  | Some value =>
      let ctype :=
        PyStr.lower (strip (default "" (head (PyStr.split ";" value)))) in
      if decide (length (PyStr.split "/" ctype) = 2)
      then default "" (head (PyStr.split "/" ctype))
      else "text"
  end.

(** The parameters of a header value, for values without a quoted [;]
    and without the extended syntax of RFC 2231. *)
Definition params (value : string) : list (string * string) :=
  (λ p, match PyStr.split "=" p with
        | name :: v :: vs =>
            (PyStr.lower (strip name), strip (PyStr.join "=" (v :: vs)))
        | _ => (strip p, "")
        end) <$> PyStr.split ";" value.

Definition get_param (m : message) (param header : string) : option string :=
  value ← Msg.get m header;
  kv ← List.find (λ kv, bool_decide (PyStr.lower kv.1 = PyStr.lower param))
                 (params value);
  Some (unquote kv.2).

Definition filename (m : message) : option string :=
  match get_param m "filename" "content-disposition" with
  | Some v => Some (strip (unquote v))
  | None =>
      match get_param m "name" "content-type" with
      | Some v => Some (strip (unquote v))
      | None => None
      end
  end.

Definition header_lines (h : list (string * string)) : string :=
  foldr (λ kv acc, kv.1 +:+ ": " +:+ kv.2 +:+ Base64.NL +:+ acc) "" h.

(** A flattening with a fixed boundary line. *)
Fixpoint flatten (m : message) : string :=
  match m with
  | Leaf h p => header_lines h +:+ Base64.NL +:+ p
  | Container h ps =>
      header_lines h +:+ Base64.NL +:+
      (fix parts (l : list message) : string :=
         match l with
         | [] => "--BOUNDARY--" +:+ Base64.NL
         | p :: l' =>
             "--BOUNDARY" +:+ Base64.NL +:+ flatten p +:+ Base64.NL +:+ parts l'
         end) ps
  end.

Definition describe (e : exn) : string :=
  match e with
  | OSError d | UnicodeEncodeError d | TypeError d | IndexError d
  | SMTPServerDisconnected d | IMAPError d | AttributeError d
  | OtherException d => d
  | SMTPResponseException code resp | SMTPDataError code resp =>
      "(" +:+ pretty code +:+ ", b'" +:+ resp +:+ "')"
  | SMTPSenderRefused code resp sender =>
      "(" +:+ pretty code +:+ ", b'" +:+ resp +:+ "', '" +:+ sender +:+ "')"
  | SMTPRecipientsRefused d =>
      "{" +:+ PyStr.join ", "
        ((λ kv : string * (Z * string),
            "'" +:+ kv.1 +:+ "': (" +:+ pretty kv.2.1 +:+ ", b'"
            +:+ kv.2.2 +:+ "')") <$> d) +:+ "}"
  end.

(** The decoders of the other transfer encodings are stand-ins: the
    examples use 7bit and base64 only. *)
Definition lib : email_lib := {|
  quopri_decodestring := id;
  decode_uu := id;
  decode_b_defective := String.list_byte_of_string;
  get_content_maintype := content_maintype;
  get_filename := filename;
  as_string := λ m, Returned (flatten m);
  str_exn := describe
|}.

(** A file system with one file, [test.txt], holding [Hello]. *)
Definition fs (path : string) : outcome (list byte) :=
  if decide (path = "test.txt") then Returned [x48; x65; x6c; x6c; x6f]
  else Raised (OSError ("[Errno 2] No such file or directory: '"
                        +:+ path +:+ "'")).

(** A submission server that accepts everything; its state is the list
    of the messages it took, with their recipients. *)
Record accepting_state : Type := {
  rcpts : list string;
  taken : list (list string * string)
}.

Definition accepting : smtp_ops accepting_state := {|
  smtp_open _ := mret ();
  smtp_login _ _ := mret ();
  smtp_ehlo := mret ();
  smtp_mail _ := λ st,
    ({| rcpts := []; taken := taken st |}, Returned (250%Z, "OK"));
  smtp_rcpt r := λ st,
    ({| rcpts := rcpts st ++ [r]; taken := taken st |},
     Returned (250%Z, "OK"));
  smtp_rset := λ st,
    ({| rcpts := []; taken := taken st |}, Returned (250%Z, "OK"));
  smtp_data msg := λ st,
    ({| rcpts := []; taken := taken st ++ [(rcpts st, msg)] |},
     Returned (250%Z, "OK"));
  smtp_quit := mret (221%Z, "Bye");
  smtp_close := id
|}.

(** The same server behind a name that does not resolve. *)
Definition unreachable : smtp_ops accepting_state := {|
  smtp_open _ := io_raise (OSError "[Errno -2] Name or service not known");
  smtp_login := smtp_login accepting;
  smtp_ehlo := smtp_ehlo accepting;
  smtp_mail := smtp_mail accepting;
  smtp_rcpt := smtp_rcpt accepting;
  smtp_rset := smtp_rset accepting;
  smtp_data := smtp_data accepting;
  smtp_quit := smtp_quit accepting;
  smtp_close := id
|}.

(** The same server rejecting the credentials. *)
Definition rejecting_login : smtp_ops accepting_state := {|
  smtp_open := smtp_open accepting;
  smtp_login _ _ :=
    io_raise (OtherException "(535, b'5.7.8 Username and Password not accepted')");
  smtp_ehlo := smtp_ehlo accepting;
  smtp_mail := smtp_mail accepting;
  smtp_rcpt := smtp_rcpt accepting;
  smtp_rset := smtp_rset accepting;
  smtp_data := smtp_data accepting;
  smtp_quit := smtp_quit accepting;
  smtp_close := id
|}.

(** The same server refusing the message after DATA. *)
Definition rejecting_data : smtp_ops accepting_state := {|
  smtp_open := smtp_open accepting;
  smtp_login := smtp_login accepting;
  smtp_ehlo := smtp_ehlo accepting;
  smtp_mail := smtp_mail accepting;
  smtp_rcpt := smtp_rcpt accepting;
  smtp_rset := smtp_rset accepting;
  smtp_data _ := mret (554%Z, "Transaction failed");
  smtp_quit := smtp_quit accepting;
  smtp_close := id
|}.

Definition idle : accepting_state := {| rcpts := []; taken := [] |}.

Definition me : Email := Email_init {[ "EMAIL_PASSWORD" := "secret" ]}
                                    "me@example.org" "smtp.gmail.com".

End Sample.

(** ** Measures and predicates used in the statements *)

Module Tree.

(** The number of nodes of a message tree. *)
Fixpoint size (m : message) : nat :=
  match m with
  | Leaf _ _ => 1
  | Container _ ps => 1 + (fix sizes (l : list message) : nat :=
                        match l with
                        | [] => 0
                        | p :: l' => size p + sizes l'
                        end) ps
  end.

(** Every multipart node of the tree has at least one sub-part. *)
Fixpoint parts_nonempty (m : message) : bool :=
  match m with
  | Leaf _ _ => true
  | Container _ ps =>
      match ps with
      | [] => false
      | _ :: _ => (fix all (l : list message) : bool :=
                     match l with
                     | [] => true
                     | p :: l' => parts_nonempty p && all l'
                     end) ps
      end
  end.

(** The leaf that the first-branch descent reaches, if it reaches one. *)
Fixpoint first_leaf (m : message) : option message :=
  match m with
  | Leaf _ _ => Some m
  | Container _ [] => None
  | Container _ (p :: _) => first_leaf p
  end.

(** Some text of the tree holds [q]: the raw payload of a multipart
    message includes the payload of each of its parts as it stands. *)
Fixpoint payload_mentions (q : string) (m : message) : bool :=
  match m with
  | Leaf _ p => PyStr.contains q p
  | Container _ ps => (fix any (l : list message) : bool :=
                         match l with
                         | [] => false
                         | p :: l' => payload_mentions q p || any l'
                         end) ps
  end.

End Tree.

(** The test of [get_attachments] on one part. *)
Definition is_attachment (L : email_lib) (part : message) : bool :=
  negb (bool_decide (get_content_maintype L part = "multipart"))
  && bool_decide (Msg.get part "Content-Disposition" ≠ None)
  && truthy (get_filename L part).

(** The value of the last header named exactly [k]. *)
Definition last_value (k : string) (hs : list (string * string))
    : option string :=
  snd <$> List.find (λ kv, bool_decide (kv.1 = k)) (reverse hs).

Definition failure_text (L : email_lib) (e : exn) : string :=
  "Failed to send email. Error: " +:+ str_exn L e.

(** The test of [get_emails_by_body] on one fetched message. *)
Definition body_matches (body : string) (m : message) : bool :=
  body_in body (Msg.get_payload m).

(** The date header of [m] is present and holds [date]. *)
Definition date_matches (date : string) (m : message) : bool :=
  match Msg.get m "Date" with
  | Some d => PyStr.contains date d
  | None => false
  end.

(** The date header of [m] is present and free of bytes outside ASCII. *)
Definition has_date (m : message) : bool :=
  match Msg.get m "Date" with
  | Some d => PyStr.is_ascii d
  | None => false
  end.

(** The exception that leaves the [with] block of [send_email] when its
    body raised [e] in the state [st]: [e] itself once [__exit__] has sent
    QUIT and closed the connection, or the exception of [__exit__]. *)
Definition leaves_session {S : Type} (srv : smtp_ops S) (st : S) (e : exn)
    : S * exn :=
  match Smtp.exit srv () st with
  | (st', Returned _) => (st', e)
  | (st', Raised e') => (st', e')
  end.

(** A letter, a digit, or one of the characters [.], [_] and [-]. *)
Definition plain_char (c : ascii) : bool :=
  let n := nat_of_ascii c in
  (48 <=? n)%nat && (n <=? 57)%nat
  || (65 <=? n)%nat && (n <=? 90)%nat
  || (97 <=? n)%nat && (n <=? 122)%nat
  || bool_decide (c ∈ ["."; "_"; "-"]%char).

(** A name made of such characters only. *)
Fixpoint plain_name (s : string) : bool :=
  match s with
  | "" => true
  | String c s' => plain_char c && plain_name s'
  end.

(** The attachment argument is absent (or empty), or names a file that
    can be read. *)
Definition attachment_readable (fs : string → outcome (list byte))
    (attachment : option string) : Prop :=
  truthy attachment = false ∨ ∃ data, fs (default "" attachment) = Returned data.

Module Examples.

(** The message of the script at the end of [GmailManager.py], without
    its attachment. *)
Definition test_message : message :=
  Container
    [("Content-Type", "multipart/mixed"); ("MIME-Version", "1.0");
     ("From", "me@example.org"); ("To", "you@example.org");
     ("Subject", "Test")]
    [Msg.MIMEText "This is a test email."].

(** A message without a date header. *)
Definition undated : message :=
  Leaf [("From", "you@example.org"); ("Subject", "Hello")] "Hello there".

(** A message that passed two relays. *)
Definition relayed : message :=
  Leaf [("Received", "from a.example.org"); ("Received", "from b.example.org");
        ("Subject", "Hello")] "Hello there".

(** The structure [[text/plain, text/html], image/png], whose first branch
    starts with an empty text. *)
Definition nested : message :=
  Container [("Content-Type", "multipart/mixed")]
    [Container [("Content-Type", "multipart/alternative")]
       [Leaf [("Content-Type", "text/plain")] "";
        Leaf [("Content-Type", "text/html")] "<p>Hello</p>"];
     Leaf [("Content-Type", "image/png");
           ("Content-Transfer-Encoding", "base64")] "iVBORw0KGgo="].

(** The same structure with a first leaf that holds [Hello] in base64. *)
Definition nested_encoded : message :=
  Container [("Content-Type", "multipart/mixed")]
    [Container [("Content-Type", "multipart/alternative")]
       [Leaf [("Content-Type", "text/plain");
              ("Content-Transfer-Encoding", "base64")] "SGVsbG8=";
        Leaf [("Content-Type", "text/html")] "<p>Hello</p>"];
     Leaf [("Content-Type", "image/png");
           ("Content-Transfer-Encoding", "base64")] "iVBORw0KGgo="].

(** The structure [[image/png, text/plain]]: the first branch holds no
    text to read. *)
Definition picture_first : message :=
  Container [("Content-Type", "multipart/mixed")]
    [Leaf [("Content-Type", "image/png");
           ("Content-Transfer-Encoding", "base64")] "iVBORw0KGgo=";
     Leaf [("Content-Type", "text/plain")] "Hello"].

Definition inline_text : message :=
  Leaf [("Content-Type", "text/plain")] "See the report.".

Definition report_pdf : message :=
  Leaf [("Content-Type", "application/pdf");
        ("Content-Transfer-Encoding", "base64");
        ("Content-Disposition",
         "attachment; filename=" +:+ Msg.dquote +:+ "report.pdf" +:+ Msg.dquote)]
       "JVBERi0xLjQK".

(** One multipart container, one inline text, one attached file. *)
Definition report_tree : message :=
  Container [("Content-Type", "multipart/mixed")] [inline_text; report_pdf].

End Examples.

(** ** The searches that the server answers *)

Section ServerSearch.
Context {S Id Raw : Type} (srv : imap_ops S Id Raw).
Context (message_from_bytes : Raw → message).

(** Lines 84-87, 157-160 and 180-183: the body of the loop of the three
    searches, which keeps every message it fetches. *)
Definition collect_step (emails : list message) (email_id : Id)
    : io S (list message) :=
  raw_email ← imap_fetch srv email_id;
  let email_message := message_from_bytes raw_email in
  mret (emails ++ [email_message]).

Definition get_emails_by_subject (self : Email) (subject : string)
    : io S (list message) :=
  io_with (imap_open srv (smtp_server self)) (Imap.exit srv) (λ _,
    _ ← imap_login srv (sender_email self) (sender_password self);
    _ ← imap_select srv "inbox";
    email_ids ← imap_search srv
                  ("SUBJECT " +:+ Msg.dquote +:+ subject +:+ Msg.dquote);
    io_for email_ids collect_step []).

Definition get_emails_by_recipient (self : Email) (recipient : string)
    : io S (list message) :=
  io_with (imap_open srv (smtp_server self)) (Imap.exit srv) (λ _,
    _ ← imap_login srv (sender_email self) (sender_password self);
    _ ← imap_select srv "inbox";
    email_ids ← imap_search srv
                  ("TO " +:+ Msg.dquote +:+ recipient +:+ Msg.dquote);
    io_for email_ids collect_step []).

Definition get_emails_by_sender (self : Email) (sender : string)
    : io S (list message) :=
  io_with (imap_open srv (smtp_server self)) (Imap.exit srv) (λ _,
    _ ← imap_login srv (sender_email self) (sender_password self);
    _ ← imap_select srv "inbox";
    email_ids ← imap_search srv
                  ("FROM " +:+ Msg.dquote +:+ sender +:+ Msg.dquote);
    io_for email_ids collect_step []).

End ServerSearch.

Definition get_email_id (email : message) : option string :=
  Msg.get email "Message-ID".

(** ** The script at the end of the file *)

(** Line 332 of the script binds the global name [email] of the module to
    the [Email] object. From then on [email.message_from_bytes] at line 86
    is the look-up of an attribute that this object does not have: the
    loop of [get_emails_by_subject] raises as soon as it has fetched a
    message. *)
Section ScriptSearch.
Context {S Id Raw : Type} (srv : imap_ops S Id Raw).

(** Lines 84-87 with [email] bound to the [Email] object. *)
Definition rebound_step (emails : list message) (email_id : Id)
    : io S (list message) :=
  raw_email ← imap_fetch srv email_id;
  io_raise
    (AttributeError "'Email' object has no attribute 'message_from_bytes'").

(** [get_emails_by_subject] as the script runs it. *)
Definition script_get_emails_by_subject (self : Email) (subject : string)
    : io S (list message) :=
  io_with (imap_open srv (smtp_server self)) (Imap.exit srv) (λ _,
    _ ← imap_login srv (sender_email self) (sender_password self);
    _ ← imap_select srv "inbox";
    email_ids ← imap_search srv
                  ("SUBJECT " +:+ Msg.dquote +:+ subject +:+ Msg.dquote);
    io_for email_ids rebound_step []).

End ScriptSearch.

(** What ends the script: a [ValueError] of its own, or an exception that
    one of the calls let through. *)
Inductive script_exn : Type :=
| ValueError (descr : string)
| Uncaught (e : exn).

Section Script.
Context (L : email_lib) (fs : string → outcome (list byte)).
Context (environ : gmap string string).
Context {S1 : Type} (smtp : smtp_ops S1).
Context {S2 Id Raw : Type} (imap : imap_ops S2 Id Raw).

(** Lines 325-334, from the parsed arguments [args.from_email] and
    [args.to_email] ([None] for a flag that was not given). The state is
    that of the submission server and that of the mailbox server; the
    result is the exception that ended the script or the list bound to
    [emails] at its end. *)
Definition main (from_email to_email : option string) (st : S1 * S2)
    : (S1 * S2) * (script_exn + list message) :=
  if negb (truthy from_email) then
    (st, inl (ValueError "Please provide the email address of the sender."))
  else if negb (truthy to_email) then
    (st, inl (ValueError "Please provide the email address of the recipient."))
  else
    let email := Email_init environ (default "" from_email) "smtp.gmail.com" in
    match send_email L fs smtp email [default "" to_email] "Test"
            "This is a test email." (Some "test.txt") st.1 with
    | (st1, Raised e) => ((st1, st.2), inl (Uncaught e))
    | (st1, Returned _) =>
        match script_get_emails_by_subject imap email "Test" st.2 with
        | (st2, Raised e) => ((st1, st2), inl (Uncaught e))
        | (st2, Returned emails) => ((st1, st2), inr emails)
        end
    end.

End Script.

(** ** More servers *)

Module Servers.

(** What [imaplib] does to a [str] argument of a command before anything
    is sent: it is encoded as ASCII. (The description of the exception,
    which names the character and its position, is abridged.) *)
Definition encode_arg {S : Type} (arg : string) : io S unit :=
  if PyStr.is_ascii arg then mret ()
  else io_raise (UnicodeEncodeError "'ascii' codec can't encode character").

(** The client's side of [IMAP4.login(user, password)]: the password is
    quoted, which fails on [None], then the arguments are encoded. *)
Definition client_login {S : Type} (user : string) (password : option string)
    : io S unit :=
  match password with
  | None =>
      io_raise (AttributeError "'NoneType' object has no attribute 'replace'")
  | Some p => _ ← encode_arg user; encode_arg p
  end.

(** A mailbox server that holds the inbox [M1..Mn] as its state, accepts
    every login that reaches it, numbers the messages [1..n] and answers
    a search with the numbers [select criterion mbox]. The state is the
    content of the inbox; the flags of the messages are not part of it. *)
Definition selecting {Raw : Type} (select : string → list Raw → list nat)
    : imap_ops (list Raw) nat Raw := {|
  imap_open _ := mret ();
  imap_login user password := client_login user password;
  imap_select mailbox := encode_arg mailbox;
  imap_search criterion :=
    _ ← encode_arg criterion;
    ((λ mbox, (mbox, Returned (select criterion mbox)))
       : io (list Raw) (list nat));
  imap_fetch := imap_fetch Imap.inbox_ops;
  imap_logout := mret ()
|}.

(** The same server answering the search for ALL only, with all the
    messages in their order. *)
Definition inbox {Raw : Type} : imap_ops (list Raw) nat Raw := {|
  imap_open _ := mret ();
  imap_login user password := client_login user password;
  imap_select mailbox := encode_arg mailbox;
  imap_search criterion :=
    _ ← encode_arg criterion; imap_search Imap.inbox_ops criterion;
  imap_fetch := imap_fetch Imap.inbox_ops;
  imap_logout := mret ()
|}.

(** The same server rejecting the credentials. *)
Definition rejecting {Raw : Type} : imap_ops (list Raw) nat Raw := {|
  imap_open _ := mret ();
  imap_login _ _ :=
    io_raise (IMAPError "b'[AUTHENTICATIONFAILED] Invalid credentials (Failure)'");
  imap_select := imap_select Imap.inbox_ops;
  imap_search := imap_search Imap.inbox_ops;
  imap_fetch := imap_fetch Imap.inbox_ops;
  imap_logout := mret ()
|}.

(** A submission server like [Sample.accepting] that refuses the
    recipients listed in [bad] with the reply 550. *)
Definition picky (bad : list string) : smtp_ops Sample.accepting_state := {|
  smtp_open := smtp_open Sample.accepting;
  smtp_login := smtp_login Sample.accepting;
  smtp_ehlo := smtp_ehlo Sample.accepting;
  smtp_mail := smtp_mail Sample.accepting;
  smtp_rcpt r :=
    if bool_decide (r ∈ bad) then mret (550%Z, "5.1.1 User unknown")
    else smtp_rcpt Sample.accepting r;
  smtp_rset := smtp_rset Sample.accepting;
  smtp_data := smtp_data Sample.accepting;
  smtp_quit := smtp_quit Sample.accepting;
  smtp_close := id
|}.

End Servers.

(** ** Predicates on servers and replies *)

(** The reply code refuses the recipient ([sendmail] enters it in
    [senderrs]). *)
Definition refused (code : Z) : bool :=
  bool_decide (code ≠ 250%Z ∧ code ≠ 251%Z).

(** A submission server on which every command is answered: the session
    opens, the login is accepted, MAIL, DATA and QUIT are answered with 250,
    250 and 221, and RCPT for [r] with the code [code r]. The state may
    change freely. *)
Record smtp_serves {S : Type} (srv : smtp_ops S) (code : string → Z)
    : Prop := SmtpServes {
  serves_open : ∀ host st, ∃ st', smtp_open srv host st = (st', Returned ());
  serves_login :
    ∀ user pass st, ∃ st', smtp_login srv user pass st = (st', Returned ());
  serves_ehlo : ∀ st, ∃ st', smtp_ehlo srv st = (st', Returned ());
  serves_mail :
    ∀ a st, ∃ st' resp, smtp_mail srv a st = (st', Returned (250%Z, resp));
  serves_rcpt :
    ∀ r st, ∃ st' resp, smtp_rcpt srv r st = (st', Returned (code r, resp));
  serves_rset : ∀ st, ∃ st' reply, smtp_rset srv st = (st', Returned reply);
  serves_data :
    ∀ m st, ∃ st' resp, smtp_data srv m st = (st', Returned (250%Z, resp));
  serves_quit :
    ∀ st, ∃ st' resp, smtp_quit srv st = (st', Returned (221%Z, resp))
}.

(** The session of a search fails at its opening or at the
    authentication. *)
Inductive imap_session_fails {S Id Raw : Type} (srv : imap_ops S Id Raw)
    (self : Email) (st : S) : Prop :=
| imap_fails_at_open (st1 : S) (e : exn) :
    imap_open srv (smtp_server self) st = (st1, Raised e) →
    imap_session_fails srv self st
| imap_fails_at_login (st1 st2 : S) (e : exn) :
    imap_open srv (smtp_server self) st = (st1, Returned ()) →
    imap_login srv (sender_email self) (sender_password self) st1
      = (st2, Raised e) →
    imap_session_fails srv self st.

(** The address and the password are texts that [imaplib] can send: the
    password is set, and both are ASCII. *)
Definition sendable_login (self : Email) : Prop :=
  PyStr.is_ascii (sender_email self) = true
  ∧ ∃ p, sender_password self = Some p ∧ PyStr.is_ascii p = true.

(** The message with number [i] of the inbox [mbox]. *)
Definition numbered {Raw : Type} (mbox : list Raw) (i : nat) : option Raw :=
  match i with
  | O => None
  | Datatypes.S j => mbox !! j
  end.

(** What a loop that fetches the messages numbered [ids] from the inbox
    [mbox] comes to: all of them, or the error of the first number that
    is not that of a message. *)
Definition fetch_all {Raw : Type} (message_from_bytes : Raw → message)
    (mbox : list Raw) (ids : list nat) : outcome (list message) :=
  match mapM (numbered mbox) ids with
  | Some raws => Returned (message_from_bytes <$> raws)
  | None => Raised (IMAPError "FETCH command error: BAD")
  end.

(** The keys of [senderrs] after the loop of [sendmail] over the
    recipients, from the keys [ks] before it: each refused recipient is
    entered once, at its first refusal. *)
Definition add_key (ks : list string) (k : string) : list string :=
  if decide (k ∈ ks) then ks else ks ++ [k].

Definition refused_keys (code : string → Z) (ks : list string)
    (recipients : list string) : list string :=
  foldl (λ ks r, if refused (code r) then add_key ks r else ks) ks recipients.

(** ** Proof automation for the session monad *)

Ltac io_unfold :=
  unfold mbind, io_mbind, io_bind, mret, io_mret, io_ret, io_raise,
         io_catch, io_lift in *.

Ltac io_cases :=
  repeat match goal with
         | |- context [match ?x with _ => _ end] => destruct x eqn:?
         | |- context [if ?x then _ else _] => destruct x eqn:?
         | |- context [let '(_, _) := ?x in _] => destruct x eqn:?
         end.

(** * Facts about the library models *)

Module PyStrFacts.
Import PyStr.

Lemma str_app_cons (a : ascii) (s t : string) :
  String a s +:+ t = String a (s +:+ t).
Proof. reflexivity. Qed.

Lemma str_app_nil_l (s : string) : "" +:+ s = s.
Proof. reflexivity. Qed.

Lemma str_app_nil_r (s : string) : s +:+ "" = s.
Proof. induction s as [|a s IH]; [done|]. by rewrite str_app_cons, IH. Qed.

Lemma str_app_assoc (s t u : string) : (s +:+ t) +:+ u = s +:+ (t +:+ u).
Proof. induction s as [|a s IH]; [done|]. by rewrite !str_app_cons, IH. Qed.

End PyStrFacts.

Module Base64Facts.
Import PyStr PyStrFacts Base64.
Local Open Scope N_scope.

Lemma sextets_complete (n : N) : n < 64 → n ∈ sextets.
Proof.
  intros Hn. unfold sextets. apply list_elem_of_fmap.
  exists (N.to_nat n). split; [lia|]. apply elem_of_seq. lia.
Qed.

Lemma b64_index_char (n : N) : n < 64 → b64_index (b64_char n) = Some n.
Proof.
  intros Hn%sextets_complete. revert n Hn. apply Forall_forall.
  by apply (bool_decide_unpack _); vm_compute.
Qed.

Lemma b64_char_plain (n : N) :
  n < 64 →
  b64_char n ≠ "="%char ∧ b64_char n ≠ "010"%char ∧ b64_char n ≠ "013"%char.
Proof.
  intros Hn%sextets_complete. revert n Hn. apply Forall_forall.
  by apply (bool_decide_unpack _); vm_compute.
Qed.

Lemma byte_of_to_N (b : byte) : byte_of_N (Byte.to_N b) = b.
Proof. unfold byte_of_N. by rewrite Byte.of_to_N. Qed.

Lemma sextet_lt (k g : N) : (g / 64 ^ k) mod 64 < 64.
Proof. apply N.mod_lt. lia. Qed.

Lemma group_lt (a b c : byte) : group a b c < 16777216.
Proof.
  unfold group.
  pose proof (Byte.to_N_bounded a). pose proof (Byte.to_N_bounded b).
  pose proof (Byte.to_N_bounded c). lia.
Qed.

Lemma ungroup_sextets (g : N) :
  g < 16777216 →
  ungroup ((g / 64 ^ 3) mod 64) ((g / 64 ^ 2) mod 64)
          ((g / 64 ^ 1) mod 64) ((g / 64 ^ 0) mod 64) = g.
Proof.
  intros Hg. unfold ungroup.
  change (64 ^ 3) with 262144. change (64 ^ 2) with 4096.
  change (64 ^ 1) with 64. change (64 ^ 0) with 1.
  replace (g / 262144) with (g / 64 / 64 / 64) by by rewrite !N.Div0.div_div.
  replace (g / 4096) with (g / 64 / 64) by by rewrite !N.Div0.div_div.
  rewrite N.div_1_r.
  zify. Z.to_euclidean_division_equations. lia.
Qed.

Lemma group_bytes (a b c : byte) :
  let g := group a b c in
  g / 65536 = Byte.to_N a ∧ (g / 256) mod 256 = Byte.to_N b ∧
  g mod 256 = Byte.to_N c.
Proof.
  unfold group. cbv zeta.
  pose proof (Byte.to_N_bounded a). pose proof (Byte.to_N_bounded b).
  pose proof (Byte.to_N_bounded c).
  zify. Z.to_euclidean_division_equations. lia.
Qed.

Lemma decode_full_sextets (a b c : byte) :
  let g := group a b c in
  decode_full (sextet 3 g) (sextet 2 g) (sextet 1 g) (sextet 0 g)
  = Some [a; b; c].
Proof.
  cbv zeta. unfold decode_full, sextet.
  rewrite !b64_index_char by apply sextet_lt. cbn [mbind option_bind].
  rewrite ungroup_sextets by apply group_lt.
  destruct (group_bytes a b c) as (-> & -> & ->).
  by rewrite !byte_of_to_N.
Qed.

Lemma sextet_plain (k g : N) :
  sextet k g ≠ "="%char ∧ sextet k g ≠ "010"%char ∧ sextet k g ≠ "013"%char.
Proof. apply b64_char_plain, sextet_lt. Qed.

Lemma decode_last_sextets (a b c : byte) :
  let g := group a b c in
  decode_last (sextet 3 g) (sextet 2 g) (sextet 1 g) (sextet 0 g)
  = Some [a; b; c].
Proof.
  cbv zeta. unfold decode_last.
  destruct (sextet_plain 0 (group a b c)) as (? & _).
  rewrite decide_False by done. apply decode_full_sextets.
Qed.

Lemma decode_last_pad1 (a b : byte) :
  let g := group a b x00 in
  decode_last (sextet 3 g) (sextet 2 g) (sextet 1 g) "=" = Some [a; b].
Proof.
  cbv zeta. unfold decode_last.
  destruct (sextet_plain 1 (group a b x00)) as (? & _).
  rewrite decide_True, decide_False by done.
  unfold sextet. rewrite !b64_index_char by apply sextet_lt.
  cbn [mbind option_bind].
  assert (ungroup ((group a b x00 / 64 ^ 3) mod 64)
            ((group a b x00 / 64 ^ 2) mod 64)
            ((group a b x00 / 64 ^ 1) mod 64) 0 = group a b x00) as ->.
  { rewrite <- (ungroup_sextets (group a b x00)) at 4 by apply group_lt.
    unfold ungroup. f_equal. change (64 ^ 0) with 1. rewrite N.div_1_r.
    unfold group. change (Byte.to_N x00) with 0.
    zify. Z.to_euclidean_division_equations. lia. }
  destruct (group_bytes a b x00) as (-> & -> & _).
  by rewrite !byte_of_to_N.
Qed.

Lemma decode_last_pad2 (a : byte) :
  let g := group a x00 x00 in
  decode_last (sextet 3 g) (sextet 2 g) "=" "=" = Some [a].
Proof.
  cbv zeta. unfold decode_last.
  rewrite !decide_True by done.
  unfold sextet. rewrite !b64_index_char by apply sextet_lt.
  cbn [mbind option_bind].
  assert (ungroup ((group a x00 x00 / 64 ^ 3) mod 64)
            ((group a x00 x00 / 64 ^ 2) mod 64) 0 0 = group a x00 x00) as ->.
  { rewrite <- (ungroup_sextets (group a x00 x00)) at 3 by apply group_lt.
    unfold ungroup. change (64 ^ 0) with 1. change (64 ^ 1) with 64.
    rewrite N.div_1_r.
    unfold group. change (Byte.to_N x00) with 0.
    zify. Z.to_euclidean_division_equations. lia. }
  destruct (group_bytes a x00 x00) as (-> & _ & _).
  by rewrite !byte_of_to_N.
Qed.

(** Induction on byte sequences three bytes at a time. *)
Lemma list_ind3 {A} (P : list A → Prop) :
  P [] → (∀ a, P [a]) → (∀ a b, P [a; b]) →
  (∀ a b c l, P l → P (a :: b :: c :: l)) →
  ∀ l, P l.
Proof.
  intros H0 H1 H2 H3 l.
  cut (P l ∧ (∀ a, P (a :: l)) ∧ (∀ a b, P (a :: b :: l))); [tauto|].
  induction l as [|x l (IH0 & IH1 & IH2)]; [by auto|].
  split_and!; auto.
Qed.

Lemma b64encode_nil_inv (bs : list byte) : b64encode bs = "" → bs = [].
Proof. destruct bs as [|a [|b [|c bs]]]; done. Qed.

Theorem b64decode_encode (bs : list byte) : b64decode (b64encode bs) = Some bs.
Proof.
  induction bs as [|a|a b|a b c bs IH] using list_ind3.
  - done.
  - apply decode_last_pad2.
  - apply decode_last_pad1.
  - cbn [b64encode b64decode]. cbv zeta.
    destruct (b64encode bs) as [|c0 s] eqn:E.
    + apply b64encode_nil_inv in E as ->. apply decode_last_sextets.
    + rewrite decode_full_sextets. cbn [mbind option_bind].
      rewrite IH. done.
Qed.

Lemma join_splitlines_app (s t : string) :
  join_splitlines (s +:+ t) = join_splitlines s +:+ join_splitlines t.
Proof.
  induction s as [|c s IH]; [done|].
  rewrite str_app_cons. cbn [join_splitlines].
  repeat case_decide; by rewrite ?str_app_cons, IH.
Qed.

Lemma join_splitlines_b64encode (bs : list byte) :
  join_splitlines (b64encode bs) = b64encode bs.
Proof.
  induction bs as [|a|a b|a b c bs IH] using list_ind3;
    cbn [b64encode join_splitlines]; cbv zeta; [done|..].
  all: repeat match goal with
       | |- context [decide (sextet ?k ?g = _)] =>
           let H1 := fresh in let H2 := fresh in
           destruct (sextet_plain k g) as (_ & H1 & H2);
           rewrite !(decide_False (P := sextet k g = _)) by done;
           clear H1 H2
       end.
  all: by rewrite ?IH.
Qed.

Lemma b64encode_app (k : nat) (xs ys : list byte) :
  length xs = (3 * k)%nat → b64encode (xs ++ ys) = b64encode xs +:+ b64encode ys.
Proof.
  revert xs. induction k as [|k IH]; intros xs Hlen.
  - by destruct xs.
  - destruct xs as [|a [|b [|c xs]]]; simpl in Hlen; try lia.
    cbn [app b64encode]. cbv zeta. rewrite !str_app_cons.
    rewrite IH by lia. done.
Qed.

Lemma encode_lines_joined (fuel : nat) (bs : list byte) :
  (length bs ≤ fuel)%nat →
  join_splitlines (encode_lines fuel bs) = b64encode bs.
Proof.
  revert bs. induction fuel as [|fuel IH]; intros bs Hlen.
  - by destruct bs; [|simpl in Hlen; lia].
  - destruct bs as [|b0 bs0]; [done|]. set (bs := b0 :: bs0) in *.
    assert (length bs = S (length bs0)) as Hbs by done.
    cbn [encode_lines]. unfold b2a_base64, bs at 1.
    rewrite !join_splitlines_app, join_splitlines_b64encode.
    rewrite IH by (rewrite length_drop; lia).
    change (join_splitlines NL) with "". rewrite str_app_nil_r.
    destruct (decide (length bs ≤ 57)%nat) as [Hle|Hgt].
    + rewrite take_ge, drop_ge by done. apply str_app_nil_r.
    + rewrite <- (b64encode_app 19) by (rewrite length_take; lia).
      by rewrite take_drop.
Qed.

(** Decoding the line-wrapped encoding returns the bytes encoded. *)
Theorem body_encode_roundtrip (bs : list byte) :
  b64decode (join_splitlines (body_encode bs)) = Some bs.
Proof.
  unfold body_encode. rewrite encode_lines_joined by done.
  apply b64decode_encode.
Qed.

End Base64Facts.

Module SubstrFacts.
Import PyStr PyStrFacts.

Lemma prefix_spec (p s : string) :
  prefix p s = true ↔ ∃ b, s = p +:+ b.
Proof.
  revert s. induction p as [|a p IH]; intros s; cbn [prefix].
  - split; [by exists s|done].
  - destruct s as [|c s]; [split; [done|by intros [b Hb]]|].
    case_decide as Hac.
    + subst c. rewrite IH. split.
      * intros [b ->]. by exists b.
      * intros [b Hb]. rewrite str_app_cons in Hb. injection Hb as ->. by exists b.
    + split; [done|]. intros [b Hb]. rewrite str_app_cons in Hb. congruence.
Qed.

(** [contains q s] holds exactly when [q] occurs in [s] as a substring. *)
Lemma contains_spec (q s : string) :
  contains q s = true ↔ ∃ a b, s = a +:+ q +:+ b.
Proof.
  induction s as [|c s IH].
  - cbn [contains]. rewrite orb_false_r, prefix_spec. split.
    + intros [b Hb]. by exists "", b.
    + intros ([|x a] & b & Hb); [by exists b|done].
  - cbn [contains]. rewrite orb_true_iff, prefix_spec, IH. split.
    + intros [[b Hb]|(a & b & ->)]; [by exists "", b|].
      by exists (String c a), b.
    + intros ([|x a] & b & Hb); [left; by exists b|right].
      rewrite str_app_cons in Hb. injection Hb as -> ->. by exists a, b.
Qed.

Lemma contains_self (q : string) : contains q q = true.
Proof. apply contains_spec. exists "", "". by rewrite str_app_nil_r. Qed.

Lemma rev_app_spec (s t : string) : String.rev_app s t = String.rev s +:+ t.
Proof.
  unfold String.rev. revert t. induction s as [|c s IH]; intros t; [done|].
  cbn [String.rev_app]. rewrite (IH (String c "")), IH.
  by rewrite str_app_assoc.
Qed.

Lemma rev_cons (c : ascii) (s : string) :
  String.rev (String c s) = String.rev s +:+ String c "".
Proof. unfold String.rev at 1. cbn [String.rev_app]. apply rev_app_spec. Qed.

Lemma has_char_app (c : ascii) (s t : string) :
  has_char c (s +:+ t) = has_char c s || has_char c t.
Proof.
  induction s as [|d s IH]; [done|].
  rewrite str_app_cons. cbn [has_char]. by rewrite IH, orb_assoc.
Qed.

Lemma has_char_rev (c : ascii) (s : string) :
  has_char c (String.rev s) = has_char c s.
Proof.
  induction s as [|d s IH]; [done|].
  rewrite rev_cons, has_char_app, IH. cbn [has_char].
  rewrite orb_false_r. apply orb_comm.
Qed.

Lemma split_go_nonempty (sep : ascii) (cur s : string) :
  split_go sep cur s ≠ [].
Proof. revert cur. induction s as [|c s IH]; intros cur; cbn; [done|]. by case_decide. Qed.

Lemma last_cons_nonempty {A} (x d : A) (l : list A) :
  l ≠ [] → List.last (x :: l) d = List.last l d.
Proof. by destruct l. Qed.

Lemma split_go_last (sep : ascii) (cur s : string) :
  has_char sep cur = false →
  let seg := last_piece (split_go sep cur s) in
  has_char sep seg = false ∧
  (String.rev cur +:+ s = seg ∨
   ∃ dir, String.rev cur +:+ s = dir +:+ String sep seg).
Proof.
  cbv zeta. unfold last_piece. revert cur.
  induction s as [|c s IH]; intros cur Hcur; cbn [split_go].
  - cbn [List.last]. rewrite has_char_rev, str_app_nil_r. auto.
  - case_decide as Hc.
    + subst c. rewrite last_cons_nonempty by apply split_go_nonempty.
      destruct (IH "" eq_refl) as [Hseg Hs]. split; [done|]. right.
      change (String.rev "" +:+ s) with s in Hs.
      destruct Hs as [Hs|[dir Hs]].
      * exists (String.rev cur). by rewrite Hs at 1.
      * exists (String.rev cur +:+ String sep dir).
        rewrite Hs at 1. by rewrite str_app_assoc, str_app_cons.
    + destruct (IH (String c cur)) as [Hseg Hs].
      { cbn [has_char]. by rewrite bool_decide_false, Hcur by done. }
      split; [done|]. rewrite rev_cons, str_app_assoc in Hs. exact Hs.
Qed.

(** The last piece of a path cut at [sep] holds no [sep], and the path is
    that piece, or a directory part, [sep], and that piece. *)
Lemma split_last (sep : ascii) (s : string) :
  let seg := last_piece (split sep s) in
  has_char sep seg = false ∧ (s = seg ∨ ∃ dir, s = dir +:+ String sep seg).
Proof. apply (split_go_last sep "" s). done. Qed.

End SubstrFacts.

Module MsgFacts.
Import Msg Tree.

(** Induction on message trees, with the hypothesis on every sub-part. *)
Lemma message_tree_ind (P : message → Prop) :
  (∀ h p, P (Leaf h p)) →
  (∀ h ps, Forall P ps → P (Container h ps)) →
  ∀ m, P m.
Proof.
  intros HL HC. fix IH 1. intros [h p|h ps]; [apply HL|].
  apply HC. induction ps as [|p ps IHps]; constructor; [apply IH|apply IHps].
Qed.

Lemma walk_container (h : list (string * string)) (ps : list message) :
  walk (Container h ps) = Container h ps :: concat (walk <$> ps).
Proof.
  cbn [walk]. f_equal. induction ps as [|p ps IH]; [done|].
  cbn [fmap list_fmap concat]. by rewrite <- IH.
Qed.

Lemma walk_leaf (h : list (string * string)) (p : string) :
  walk (Leaf h p) = [Leaf h p].
Proof. reflexivity. Qed.

Lemma size_container (h : list (string * string)) (ps : list message) :
  size (Container h ps) = S (sum_list (size <$> ps)).
Proof.
  cbn [size]. f_equal. induction ps as [|p ps IH]; [done|].
  cbn [fmap list_fmap sum_list_with]. by rewrite <- IH.
Qed.

Lemma parts_nonempty_container (h : list (string * string))
    (ps : list message) :
  parts_nonempty (Container h ps)
  = negb (bool_decide (ps = [])) && forallb parts_nonempty ps.
Proof.
  destruct ps as [|p ps]; [done|]. cbn [parts_nonempty forallb negb].
  by rewrite bool_decide_false by done.
Qed.

Lemma payload_mentions_container (q : string) (h : list (string * string))
    (ps : list message) :
  payload_mentions q (Container h ps) = existsb (payload_mentions q) ps.
Proof.
  cbn [payload_mentions]. induction ps as [|p ps IH]; [done|].
  cbn [existsb]. by rewrite <- IH.
Qed.

End MsgFacts.

Section HelperFacts.
Context (L : email_lib).
Import Msg Tree MsgFacts.

Lemma get_attachments_loop (acc l : list message) :
  foldl (λ attachments part,
           if decide (get_content_maintype L part = "multipart") then attachments
           else if decide (get part "Content-Disposition" = None)
           then attachments
           else
             let file_name := get_filename L part in
             if truthy file_name then attachments ++ [part] else attachments)
        acc l
  = acc ++ filter (λ p, is_attachment L p = true) l.
Proof.
  revert acc. induction l as [|p l IH]; intros acc; [by rewrite app_nil_r|].
  cbn [foldl]. rewrite IH, filter_cons. unfold is_attachment.
  destruct (decide (get_content_maintype L p = "multipart")) as [Hm|Hm].
  { rewrite bool_decide_true by done. by rewrite decide_False by done. }
  rewrite (bool_decide_false _ Hm). cbn [negb andb].
  destruct (decide (get p "Content-Disposition" = None)) as [Hd|Hd].
  { rewrite bool_decide_false by tauto. by rewrite decide_False by done. }
  rewrite bool_decide_true by done. cbn [andb].
  destruct (truthy (get_filename L p)).
  - rewrite decide_True by done. by rewrite <- app_assoc.
  - by rewrite decide_False by done.
Qed.

Lemma get_attachments_filter (email : message) :
  get_attachments L email = filter (λ p, is_attachment L p = true) (walk email).
Proof. apply get_attachments_loop. Qed.

Lemma get_email_body_unfold (email : message) :
  get_email_body L email
  = if is_multipart email
    then part ← get_payload_at email 0; get_email_body L part
    else Returned (get_payload_decoded L email).
Proof. by destruct email as [h p|h [|p ps]]. Qed.

Lemma get_email_body_first_leaf (email : message) :
  get_email_body L email
  = match first_leaf email with
    | Some leaf => Returned (get_payload_decoded L leaf)
    | None => Raised (IndexError "list index out of range")
    end.
Proof.
  induction email as [h p|h ps IH] using message_tree_ind; [done|].
  destruct ps as [|p ps]; [done|]. cbn [get_email_body first_leaf].
  by inversion IH.
Qed.

Lemma first_leaf_nonempty (email : message) :
  parts_nonempty email = true →
  ∃ h p, first_leaf email = Some (Leaf h p).
Proof.
  induction email as [h p|h ps IH] using message_tree_ind; [by eauto|].
  rewrite parts_nonempty_container. destruct ps as [|p ps]; [done|].
  cbn [forallb]. rewrite bool_decide_false by done. cbn [negb andb].
  intros [Hp _]%andb_true_iff. inversion IH; subst. cbn [first_leaf]. auto.
Qed.

Lemma get_email_headers_lookup (email : message) (k : string) :
  get_email_headers email !! k = last_value k (items email).
Proof.
  unfold get_email_headers, last_value.
  induction (items email) as [|[k' v'] hs IH] using rev_ind; [done|].
  rewrite foldl_app, reverse_snoc. cbn [foldl List.find fst snd].
  destruct (decide (k' = k)) as [->|Hne].
  - rewrite bool_decide_true by done. by rewrite lookup_insert_eq.
  - rewrite bool_decide_false by done. by rewrite lookup_insert_ne.
Qed.

End HelperFacts.

Section SendFacts.
Context (L : email_lib) (fs : string → outcome (list byte)).
Context {S : Type} (srv : smtp_ops S).
Import Msg PyStrFacts.

Lemma get_payload_decoded_MIMEText (text : string) :
  get_payload_decoded L (MIMEText text)
  = Some (String.list_byte_of_string text).
Proof.
  unfold MIMEText. destruct (PyStr.is_ascii text); unfold get_payload_decoded.
  - match goal with
    | |- context [get ?m ?k] => change (get m k) with (Some "7bit")
    end.
    reflexivity.
  - match goal with
    | |- context [get ?m ?k] => change (get m k) with (Some "base64")
    end.
    cbn [default from_option].
    change (PyStr.lower "base64") with "base64".
    rewrite decide_False, decide_True by done.
    by rewrite Base64Facts.body_encode_roundtrip.
Qed.

Lemma build_message_plain (self : Email) (recipient_emails : list string)
    (subject body : string) (attachment : option string) :
  truthy attachment = false →
  build_message L fs self recipient_emails subject body attachment
  = Returned (Container
      [("Content-Type", "multipart/mixed"); ("MIME-Version", "1.0");
       ("From", sender_email self);
       ("To", PyStr.join ", " recipient_emails);
       ("Subject", subject)]
      [MIMEText body]).
Proof. intros Hatt. unfold build_message. cbn. by rewrite Hatt. Qed.

Lemma _rset_cases (st : S) :
  ∃ st' r, Smtp._rset srv st = (st', r).
Proof. destruct (Smtp._rset srv st); eauto. Qed.

Lemma sendmail_nobody (from_addr msg : string) (st : S) :
  ∃ st' e, Smtp.sendmail srv from_addr [] msg st = (st', Raised e).
Proof.
  unfold Smtp.sendmail. cbn [io_for]. io_unfold.
  io_cases; simplify_eq/=; eauto.
Qed.

Lemma io_with_exit_raises {R A} (enter : io S R) (exit : R → io S unit)
    (body : R → io S A) (st : S) :
  (∀ x st1, ∃ st2 e, body x st1 = (st2, Raised e)) →
  ∃ st' e, io_with enter exit body st = (st', Raised e).
Proof.
  intros Hbody. unfold io_with, io_bind.
  destruct (enter st) as [st1 [x|e]]; [|by eauto].
  destruct (Hbody x st1) as (st2 & e & ->).
  destruct (exit x st2) as [st3 [[]|e']]; eauto.
Qed.

Lemma submit_nobody (self : Email) (msg : message) (st : S) :
  ∃ st' e, submit L srv self [] msg st = (st', Raised e).
Proof.
  apply io_with_exit_raises. intros [] st1. io_unfold.
  destruct (smtp_login srv _ _ st1) as [st2 [[]|e]]; [|by eauto].
  destruct (as_string L msg) as [text|e]; [|by eauto].
  destruct (sendmail_nobody (sender_email self) text st2) as (st3 & e & ->).
  eauto.
Qed.

Lemma send_email_built (self : Email) (recipient_emails : list string)
    (subject body : string) (attachment : option string) (msg : message)
    (st : S) :
  build_message L fs self recipient_emails subject body attachment
    = Returned msg →
  send_email L fs srv self recipient_emails subject body attachment st
  = match submit L srv self recipient_emails msg st with
    | (st', Returned _) => (st', Returned "Email sent successfully.")
    | (st', Raised e) => (st', Returned (failure_text L e))
    end.
Proof.
  intros Hb. unfold send_email. rewrite Hb. io_unfold.
  by destruct (submit _ _ _ _ _ _) as [st' [[]|e]].
Qed.

End SendFacts.

Section SearchFacts.
Context {Raw : Type} (message_from_bytes : Raw → message).
Import Msg.

Lemma by_body_loop (body : string) (mbox : list Raw) (j k : nat)
    (acc : list message) :
  k + j = length mbox →
  io_for (seq (S k) j)
    (by_body_step Imap.inbox_ops message_from_bytes body) acc mbox
  = (mbox, Returned (acc ++ filter (λ m, body_matches body m = true)
                                   (message_from_bytes <$> drop k mbox))).
Proof.
  revert k acc. induction j as [|j IH]; intros k acc Hk.
  - rewrite drop_ge by lia. cbn. by rewrite app_nil_r.
  - destruct (lookup_lt_is_Some_2 mbox k) as [raw Hraw]; [lia|].
    rewrite (drop_S _ _ _ Hraw). cbn [seq io_for fmap list_fmap].
    rewrite filter_cons.
    unfold mbind at 1, io_mbind, io_bind.
    unfold by_body_step at 1.
    unfold mbind at 1, io_mbind, io_bind. cbn [imap_fetch Imap.inbox_ops].
    rewrite Hraw.
    change (body_in body (get_payload (message_from_bytes raw)))
      with (body_matches body (message_from_bytes raw)).
    case_decide as Hb.
    + rewrite Hb. unfold mret at 1, io_mret, io_ret. rewrite IH by lia.
      by rewrite <- app_assoc.
    + apply not_true_is_false in Hb. rewrite Hb.
      unfold mret at 1, io_mret, io_ret. by rewrite IH by lia.
Qed.

(** A multipart message never passes the test of [get_emails_by_body]; a
    message with a text payload passes it when the query occurs in the
    text. *)
Lemma body_matches_multipart (body : string) (h : list (string * string))
    (parts : list message) :
  body_matches body (Container h parts) = false.
Proof. reflexivity. Qed.

Lemma body_matches_leaf (body : string) (h : list (string * string))
    (payload : string) :
  body_matches body (Leaf h payload) = true
  ↔ ∃ before after, payload = before +:+ body +:+ after.
Proof. apply SubstrFacts.contains_spec. Qed.

(** On an inbox [M1..Mn], [get_emails_by_body] fetches every message and
    keeps, in order, those that pass its test. *)
Lemma get_emails_by_body_inbox (self : Email) (body : string)
    (mbox : list Raw) :
  get_emails_by_body Imap.inbox_ops message_from_bytes self body mbox
  = (mbox, Returned (filter (λ m, body_matches body m = true)
                            (message_from_bytes <$> mbox))).
Proof.
  unfold get_emails_by_body, io_with.
  unfold mbind, io_mbind, io_bind. cbn -[io_for seq by_body_step].
  rewrite decide_True by done.
  by rewrite (by_body_loop body mbox (length mbox) 0 []).
Qed.

Lemma by_date_loop (date : string) (mbox : list Raw) (j k : nat)
    (acc : list message) :
  k + j = length mbox →
  ∃ r,
    io_for (seq (S k) j)
      (by_date_step Imap.inbox_ops message_from_bytes date) acc mbox
    = (mbox, r)
    ∧ if forallb has_date (message_from_bytes <$> drop k mbox)
      then r = Returned (acc ++ filter (λ m, date_matches date m = true)
                                       (message_from_bytes <$> drop k mbox))
      else ∃ descr, r = Raised (TypeError descr).
Proof.
  revert k acc. induction j as [|j IH]; intros k acc Hk.
  - rewrite drop_ge by lia. cbn. eexists. split; [done|]. by rewrite app_nil_r.
  - destruct (lookup_lt_is_Some_2 mbox k) as [raw Hraw]; [lia|].
    rewrite (drop_S _ _ _ Hraw). cbn [seq io_for fmap list_fmap forallb].
    rewrite filter_cons.
    unfold mbind at 1, io_mbind, io_bind.
    unfold by_date_step at 1.
    unfold mbind at 1, io_mbind, io_bind. cbn [imap_fetch Imap.inbox_ops].
    rewrite Hraw. unfold mbind at 1, io_mbind, io_bind, io_lift.
    unfold has_date at 1.
    destruct (get (message_from_bytes raw) "Date") as [d|] eqn:Hd;
      cbn [date_in andb]; [|by eauto].
    destruct (PyStr.is_ascii d) eqn:Hascii; cbn [andb]; [|by eauto].
    assert (date_matches date (message_from_bytes raw)
            = PyStr.contains date d) as Hm
      by (unfold date_matches; by rewrite Hd).
    case_decide as Hb; rewrite Hm in Hb.
    + rewrite Hb. unfold mret at 1, io_mret, io_ret.
      destruct (IH (S k) (acc ++ [message_from_bytes raw])) as (r & -> & Hr);
        [lia|].
      eexists. split; [done|].
      destruct (forallb _ _); [|done]. by rewrite Hr, <- app_assoc.
    + apply not_true_is_false in Hb. rewrite Hb.
      unfold mret at 1, io_mret, io_ret.
      destruct (IH (S k) acc) as (r & -> & Hr); [lia|]. eauto.
Qed.

End SearchFacts.

Section BuildFacts.
Context (L : email_lib) (fs : string → outcome (list byte)).
Context {S : Type} (srv : smtp_ops S).
Import Msg Tree MsgFacts PyStrFacts SubstrFacts.

Lemma attachment_part_readable (attachment : string) (data : list byte) :
  fs attachment = Returned data →
  attachment_part L fs attachment
  = Returned
      (Leaf [("Content-Type", "application/octet-stream");
             ("MIME-Version", "1.0");
             ("Content-Transfer-Encoding", "base64");
             ("Content-Disposition",
              "attachment; filename= "
              +:+ PyStr.last_piece (PyStr.split "/" attachment))]
            (Base64.body_encode data)).
Proof.
  intros Hfs. unfold attachment_part. rewrite Hfs.
  cbn. by rewrite String.list_byte_of_string_of_list_byte.
Qed.

Lemma build_message_returns (self : Email) (recipient_emails : list string)
    (subject body : string) (attachment : option string) :
  attachment_readable fs attachment →
  ∃ msg, build_message L fs self recipient_emails subject body attachment
         = Returned msg.
Proof.
  intros [Hno|[data Hfs]].
  - rewrite build_message_plain by done. eauto.
  - unfold build_message. cbn [MIMEMultipart setitem attach app].
    cbn [mbind outcome_mbind]. destruct (truthy attachment); [|by eauto].
    rewrite (attachment_part_readable _ _ Hfs). cbn. eauto.
Qed.

Lemma build_message_attached (self : Email) (recipient_emails : list string)
    (subject body path : string) (data : list byte) :
  path ≠ "" → fs path = Returned data →
  build_message L fs self recipient_emails subject body (Some path)
  = Returned (Container
      [("Content-Type", "multipart/mixed"); ("MIME-Version", "1.0");
       ("From", sender_email self);
       ("To", PyStr.join ", " recipient_emails);
       ("Subject", subject)]
      [MIMEText body;
       Leaf [("Content-Type", "application/octet-stream");
             ("MIME-Version", "1.0");
             ("Content-Transfer-Encoding", "base64");
             ("Content-Disposition",
              "attachment; filename= "
              +:+ PyStr.last_piece (PyStr.split "/" path))]
            (Base64.body_encode data)]).
Proof.
  intros Hpath Hfs. unfold build_message. cbn [truthy].
  rewrite bool_decide_false by done.
  change (default "" (Some path)) with path.
  rewrite (attachment_part_readable _ _ Hfs). reflexivity.
Qed.

(** A file-read error on the attachment path reaches the caller: the file
    is read before the session and its [try] block. *)
Lemma send_email_file_error_propagates (self : Email)
    (recipient_emails : list string) (subject body path : string) (e : exn)
    (st : S) :
  path ≠ "" → fs path = Raised e →
  send_email L fs srv self recipient_emails subject body (Some path) st
  = (st, Raised e).
Proof.
  intros Hpath Hfs. unfold send_email, build_message, attachment_part.
  cbn [truthy]. rewrite bool_decide_false by done.
  cbn. by rewrite Hfs.
Qed.

End BuildFacts.

Section PathFacts.
Import PyStr PyStrFacts SubstrFacts.

Lemma split_go_plain (sep : ascii) (cur s : string) :
  has_char sep s = false →
  split_go sep cur s = [String.rev cur +:+ s].
Proof.
  revert cur. induction s as [|c s IH]; intros cur Hs; cbn [split_go].
  - by rewrite str_app_nil_r.
  - cbn [has_char] in Hs. apply orb_false_iff in Hs as [Hc Hs].
    apply bool_decide_eq_false in Hc. rewrite decide_False by done.
    rewrite IH by done. by rewrite rev_cons, str_app_assoc.
Qed.

Lemma split_go_last_app (sep : ascii) (cur dir name : string) :
  has_char sep name = false →
  last_piece (split_go sep cur (dir +:+ String sep name)) = name.
Proof.
  intros Hname. unfold last_piece. revert cur.
  induction dir as [|c dir IH]; intros cur.
  - rewrite str_app_nil_l. cbn [split_go]. rewrite decide_True by done.
    by rewrite split_go_plain.
  - rewrite str_app_cons. cbn [split_go]. case_decide.
    + rewrite last_cons_nonempty by apply split_go_nonempty. apply IH.
    + apply IH.
Qed.

End PathFacts.

Section ReaderFacts.
Import PyStr PyStrFacts SubstrFacts.

Lemma plain_char_spec (c : ascii) :
  plain_char c = true →
  Ascii.is_space c = false ∧ c ≠ ";"%char ∧ c ≠ Sample.dq ∧ c ≠ "<"%char.
Proof.
  destruct c as [[] [] [] [] [] [] [] []]; vm_compute; intros H;
    try discriminate H; split_and!; done.
Qed.

Lemma plain_name_app (s t : string) :
  plain_name (s +:+ t) = plain_name s && plain_name t.
Proof.
  induction s as [|c s IH]; [by rewrite str_app_nil_l|].
  rewrite str_app_cons. cbn [plain_name]. by rewrite IH, andb_assoc.
Qed.

Lemma plain_name_rev (s : string) :
  plain_name (String.rev s) = plain_name s.
Proof.
  induction s as [|c s IH]; [done|].
  rewrite rev_cons, plain_name_app, IH. cbn [plain_name].
  rewrite andb_true_r. apply andb_comm.
Qed.

Lemma plain_name_no_semicolon (s : string) :
  plain_name s = true → has_char ";" s = false.
Proof.
  induction s as [|c s IH]; [done|]. cbn [plain_name has_char].
  intros [Hc Hs]%andb_true_iff. rewrite IH by done.
  apply plain_char_spec in Hc as (_ & Hc & _). by rewrite bool_decide_false.
Qed.

Lemma rev_involutive (s : string) : String.rev (String.rev s) = s.
Proof.
  induction s as [|c s IH]; [done|].
  rewrite rev_cons.
  assert (∀ t u, String.rev (t +:+ u) = String.rev u +:+ String.rev t) as Happ.
  { induction t as [|d t IHt]; intros u.
    - by rewrite str_app_nil_l, str_app_nil_r.
    - by rewrite str_app_cons, !rev_cons, IHt, str_app_assoc. }
  by rewrite Happ, IH.
Qed.

Lemma lstrip_plain (s : string) : plain_name s = true → Sample.lstrip s = s.
Proof.
  destruct s as [|c s]; [done|]. cbn [plain_name Sample.lstrip].
  intros [Hc _]%andb_true_iff. apply plain_char_spec in Hc as (-> & _). done.
Qed.

Lemma strip_plain (s : string) : plain_name s = true → Sample.strip s = s.
Proof.
  intros Hs. unfold Sample.strip. rewrite (lstrip_plain s) by done.
  rewrite lstrip_plain by by rewrite plain_name_rev.
  apply rev_involutive.
Qed.

Lemma unquote_plain (s : string) : plain_name s = true → Sample.unquote s = s.
Proof.
  destruct s as [|c s]; [done|]. cbn [plain_name].
  intros [Hc _]%andb_true_iff.
  apply plain_char_spec in Hc as (_ & _ & Hq & Hlt).
  unfold Sample.unquote. destruct (String.rev (String c s)); [done|].
  by rewrite !decide_False by (by intros [? _]).
Qed.

Lemma join_split_go (sep : ascii) (cur s : string) :
  join (String sep "") (split_go sep cur s) = String.rev cur +:+ s.
Proof.
  revert cur. induction s as [|c s IH]; intros cur; cbn [split_go].
  - by rewrite str_app_nil_r.
  - case_decide as Hc.
    + subst c. specialize (IH "").
      destruct (split_go sep "" s) as [|x xs] eqn:Hx.
      { by destruct (split_go_nonempty sep "" s). }
      cbn [join]. cbn [join] in IH. rewrite IH.
      by rewrite str_app_nil_l.
    + rewrite IH. by rewrite rev_cons, str_app_assoc.
Qed.

Lemma split_go_app_sep (sep : ascii) (cur a rest : string) :
  has_char sep a = false →
  split_go sep cur (a +:+ String sep rest)
  = (String.rev cur +:+ a) :: split_go sep "" rest.
Proof.
  revert cur. induction a as [|c a IH]; intros cur Ha.
  - rewrite str_app_nil_l, str_app_nil_r. cbn [split_go].
    by rewrite decide_True.
  - cbn [has_char] in Ha. apply orb_false_iff in Ha as [Hc Ha].
    apply bool_decide_eq_false in Hc.
    rewrite str_app_cons. cbn [split_go]. rewrite decide_False by done.
    rewrite IH by done. by rewrite rev_cons, str_app_assoc.
Qed.

Lemma params_of_disposition (name : string) :
  plain_name name = true →
  Sample.params ("attachment; filename= " +:+ name)
  = [("attachment", ""); ("filename", name)].
Proof.
  intros Hname. unfold Sample.params, split.
  change ("attachment; filename= " +:+ name)
    with ("attachment" +:+ String ";" (" filename= " +:+ name)).
  rewrite split_go_app_sep by done.
  assert (has_char ";" (" filename= " +:+ name) = false) as Hsemi
    by (rewrite has_char_app, (plain_name_no_semicolon name) by done; reflexivity).
  rewrite split_go_plain by done.
  cbn [fmap list_fmap]. f_equal. f_equal.
  change (String.rev "" +:+ " filename= " +:+ name)
    with (" filename" +:+ String "=" (" " +:+ name)).
  rewrite split_go_app_sep by done.
  pose proof (join_split_go "=" "" (" " +:+ name)) as Hjoin.
  destruct (split_go "=" "" (" " +:+ name)) as [|v vs];
    [by destruct (split_go_nonempty "=" "" (" " +:+ name))|].
  rewrite Hjoin. f_equal.
  change (String.rev "" +:+ " " +:+ name) with (String " " name).
  unfold Sample.strip. change (Sample.lstrip (String " " name))
    with (Sample.lstrip name).
  by apply strip_plain.
Qed.

(** The reader of [Sample.lib] recovers a plain name from the header that
    [attachment_part] writes for it. *)
Lemma filename_reads_back (part : message) (name : string) :
  Msg.get part "Content-Disposition"
    = Some ("attachment; filename= " +:+ name) →
  plain_name name = true →
  Sample.filename part = Some name.
Proof.
  intros Hget Hname.
  unfold Sample.filename, Sample.get_param.
  change (Msg.get part "content-disposition")
    with (Msg.get part "Content-Disposition").
  rewrite Hget. cbn [mbind option_bind].
  rewrite params_of_disposition by done.
  change (List.find _ [_; _]) with (Some ("filename", name)).
  cbn [mbind option_bind snd]. rewrite !(unquote_plain name) by done.
  by rewrite strip_plain.
Qed.

End ReaderFacts.

Section DecodeFacts.
Context (L : email_lib).
Import Msg.

(** What [get_payload(None, True)] does to a text payload, by the
    [Content-Transfer-Encoding] of the message. *)
Lemma get_payload_decoded_plain (h : list (string * string))
    (payload : string) :
  get (Leaf h payload) "Content-Transfer-Encoding" = None →
  get_payload_decoded L (Leaf h payload)
  = Some (String.list_byte_of_string payload).
Proof.
  intros Hget. unfold get_payload_decoded.
  change (get (Leaf h payload) "content-transfer-encoding")
    with (get (Leaf h payload) "Content-Transfer-Encoding").
  by rewrite Hget.
Qed.

Lemma get_payload_decoded_base64 (h : list (string * string))
    (cte : string) (data : list byte) :
  get (Leaf h (Base64.body_encode data)) "Content-Transfer-Encoding"
    = Some cte →
  PyStr.lower cte = "base64" →
  get_payload_decoded L (Leaf h (Base64.body_encode data)) = Some data.
Proof.
  intros Hget Hcte. unfold get_payload_decoded.
  change (get (Leaf h (Base64.body_encode data)) "content-transfer-encoding")
    with (get (Leaf h (Base64.body_encode data)) "Content-Transfer-Encoding").
  rewrite Hget. cbv zeta. change (default "" (Some cte)) with cte.
  rewrite Hcte.
  rewrite decide_False, decide_True by done.
  by rewrite Base64Facts.body_encode_roundtrip.
Qed.

Lemma get_payload_decoded_quoted_printable (h : list (string * string))
    (cte payload : string) :
  get (Leaf h payload) "Content-Transfer-Encoding" = Some cte →
  PyStr.lower cte = "quoted-printable" →
  get_payload_decoded L (Leaf h payload)
  = Some (quopri_decodestring L (String.list_byte_of_string payload)).
Proof.
  intros Hget Hcte. unfold get_payload_decoded.
  change (get (Leaf h payload) "content-transfer-encoding")
    with (get (Leaf h payload) "Content-Transfer-Encoding").
  rewrite Hget. cbv zeta. change (default "" (Some cte)) with cte.
  rewrite Hcte.
  by rewrite decide_True.
Qed.

End DecodeFacts.

Section SessionFacts.
Context (L : email_lib) (fs : string → outcome (list byte)).
Context {S : Type} (srv : smtp_ops S).

(** The outcome of the session, by the step at which it fails. *)
Lemma submit_open_fails (self : Email) (recipient_emails : list string)
    (msg : message) (st st1 : S) (e : exn) :
  smtp_open srv (smtp_server self) st = (st1, Raised e) →
  submit L srv self recipient_emails msg st = (st1, Raised e).
Proof. intros Ho. unfold submit, io_with. io_unfold. by rewrite Ho. Qed.

Lemma submit_login_fails (self : Email) (recipient_emails : list string)
    (msg : message) (st st1 st2 : S) (e : exn) :
  smtp_open srv (smtp_server self) st = (st1, Returned ()) →
  smtp_login srv (sender_email self) (sender_password self) st1
    = (st2, Raised e) →
  submit L srv self recipient_emails msg st
  = ((leaves_session srv st2 e).1, Raised (leaves_session srv st2 e).2).
Proof.
  intros Ho Hl. unfold submit, io_with, leaves_session. io_unfold.
  rewrite Ho, Hl. by destruct (Smtp.exit srv () st2) as [st3 [[]|e']].
Qed.

Lemma submit_submission_fails (self : Email) (recipient_emails : list string)
    (msg : message) (st st1 st2 st3 : S) (e : exn) :
  smtp_open srv (smtp_server self) st = (st1, Returned ()) →
  smtp_login srv (sender_email self) (sender_password self) st1
    = (st2, Returned ()) →
  (text ← io_lift (as_string L msg);
   Smtp.sendmail srv (sender_email self) recipient_emails text) st2
    = (st3, Raised e) →
  submit L srv self recipient_emails msg st
  = ((leaves_session srv st3 e).1, Raised (leaves_session srv st3 e).2).
Proof.
  intros Ho Hl Hs. unfold submit, io_with, leaves_session. io_unfold.
  rewrite Ho, Hl. destruct (as_string L msg) as [text|e'].
  - rewrite Hs. by destruct (Smtp.exit srv () st3) as [st4 [[]|e']].
  - injection Hs as <- <-.
    by destruct (Smtp.exit srv () st2) as [st4 [[]|e'']].
Qed.

Lemma submit_submission_returns (self : Email)
    (recipient_emails : list string) (msg : message) (st st1 st2 st3 : S)
    (refusals : list (string * (Z * string))) :
  smtp_open srv (smtp_server self) st = (st1, Returned ()) →
  smtp_login srv (sender_email self) (sender_password self) st1
    = (st2, Returned ()) →
  (text ← io_lift (as_string L msg);
   Smtp.sendmail srv (sender_email self) recipient_emails text) st2
    = (st3, Returned refusals) →
  submit L srv self recipient_emails msg st = Smtp.exit srv () st3.
Proof.
  intros Ho Hl Hs. unfold submit, io_with. io_unfold.
  rewrite Ho, Hl. destruct (as_string L msg) as [text|e']; [|done].
  rewrite Hs. by destruct (Smtp.exit srv () st3) as [st4 [[]|e']].
Qed.

End SessionFacts.

(** * The claims *)

(** ** C1: failures of [send_email] *)

(** C1, as stated, fails: a file-read error on the attachment path is not
    turned into an error result. With the file [missing.txt] absent, the
    call raises the [OSError] of [open] to its caller. *)
Lemma send_email_unreadable_attachment_raises :
  Sample.fs "missing.txt"
    = Raised (OSError "[Errno 2] No such file or directory: 'missing.txt'")
  ∧ send_email Sample.lib Sample.fs Sample.accepting Sample.me
      ["you@example.org"] "Test" "This is a test email."
      (Some "missing.txt") Sample.idle
    = (Sample.idle,
       Raised (OSError "[Errno 2] No such file or directory: 'missing.txt'")).
Proof. split; reflexivity. Qed.

(** C1, amended: when the message is built (no attachment, or an attachment
    file that can be read), [send_email] returns a text and does not raise,
    whatever the server does. When the session fails, the text is
    ["Failed to send email. Error: "] followed by [str] of the exception
    that left the session: at the opening, the exception [e] of the
    opening; at the authentication or at the submission of the message, the
    exception [e] of that step once the session is left, or the exception
    of the QUIT sent on leaving it when this QUIT fails in turn
    ([leaves_session]). When no step fails, the text is the success
    message, or the failure text of the closing QUIT when it fails. *)
Theorem send_email_reports_session_failure
    (L : email_lib) (fs : string → outcome (list byte))
    (S : Type) (srv : smtp_ops S) (self : Email)
    (recipient_emails : list string) (subject body : string)
    (attachment : option string) (st : S) :
  attachment_readable fs attachment →
  ∃ msg, build_message L fs self recipient_emails subject body attachment
         = Returned msg
  ∧ (∃ st' text,
       send_email L fs srv self recipient_emails subject body attachment st
         = (st', Returned text))
  ∧ (∀ st1 e,
       smtp_open srv (smtp_server self) st = (st1, Raised e) →
       send_email L fs srv self recipient_emails subject body attachment st
       = (st1, Returned (failure_text L e)))
  ∧ (∀ st1 st2 e,
       smtp_open srv (smtp_server self) st = (st1, Returned ()) →
       smtp_login srv (sender_email self) (sender_password self) st1
         = (st2, Raised e) →
       send_email L fs srv self recipient_emails subject body attachment st
       = ((leaves_session srv st2 e).1,
          Returned (failure_text L (leaves_session srv st2 e).2)))
  ∧ (∀ st1 st2 st3 e,
       smtp_open srv (smtp_server self) st = (st1, Returned ()) →
       smtp_login srv (sender_email self) (sender_password self) st1
         = (st2, Returned ()) →
       (text ← io_lift (as_string L msg);
        Smtp.sendmail srv (sender_email self) recipient_emails text) st2
         = (st3, Raised e) →
       send_email L fs srv self recipient_emails subject body attachment st
       = ((leaves_session srv st3 e).1,
          Returned (failure_text L (leaves_session srv st3 e).2)))
  ∧ (∀ st1 st2 st3 refusals,
       smtp_open srv (smtp_server self) st = (st1, Returned ()) →
       smtp_login srv (sender_email self) (sender_password self) st1
         = (st2, Returned ()) →
       (text ← io_lift (as_string L msg);
        Smtp.sendmail srv (sender_email self) recipient_emails text) st2
         = (st3, Returned refusals) →
       send_email L fs srv self recipient_emails subject body attachment st
       = match Smtp.exit srv () st3 with
         | (st4, Returned _) => (st4, Returned "Email sent successfully.")
         | (st4, Raised e) => (st4, Returned (failure_text L e))
         end).
Proof.
  intros Hatt.
  destruct (build_message_returns L fs self recipient_emails subject body
              attachment Hatt) as [msg Hmsg].
  exists msg. split; [done|].
  rewrite (send_email_built L fs srv _ _ _ _ _ msg st Hmsg). split_and!.
  - destruct (submit L srv self recipient_emails msg st) as [st' [[]|e]];
      eauto.
  - intros st1 e Ho. by rewrite (submit_open_fails L srv _ _ _ _ _ _ Ho).
  - intros st1 st2 e Ho Hl.
    by rewrite (submit_login_fails L srv _ _ _ _ _ _ _ Ho Hl).
  - intros st1 st2 st3 e Ho Hl Hs.
    by rewrite (submit_submission_fails L srv _ _ _ _ _ _ _ _ Ho Hl Hs).
  - intros st1 st2 st3 refusals Ho Hl Hs.
    by rewrite (submit_submission_returns L srv _ _ _ _ _ _ _ _ Ho Hl Hs).
Qed.

Lemma send_email_reports_session_failure_witness :
  send_email Sample.lib Sample.fs Sample.rejecting_login Sample.me
    ["you@example.org"] "Test" "This is a test email." (Some "test.txt")
    Sample.idle
  = (Sample.idle,
     Returned ("Failed to send email. Error: "
               +:+ "(535, b'5.7.8 Username and Password not accepted')")).
Proof.
  destruct (send_email_reports_session_failure Sample.lib Sample.fs _
              Sample.rejecting_login Sample.me ["you@example.org"] "Test"
              "This is a test email." (Some "test.txt") Sample.idle)
    as (msg & _ & _ & _ & Hlogin & _).
  - right. eexists. reflexivity.
  - exact (Hlogin Sample.idle Sample.idle
             (OtherException
                "(535, b'5.7.8 Username and Password not accepted')")
             eq_refl eq_refl).
Defined.

(** ** C2: the empty recipient list *)

(** C2, as stated, fails: with no recipient and an attachment that cannot
    be read, [send_email] returns no error result; it raises. *)
Lemma send_email_nobody_unreadable_attachment :
  send_email Sample.lib Sample.fs Sample.accepting Sample.me
    [] "Test" "This is a test email." (Some "missing.txt") Sample.idle
  = (Sample.idle,
     Raised (OSError "[Errno 2] No such file or directory: 'missing.txt'")).
Proof. reflexivity. Qed.

(** C2, amended: for the empty recipient list, when the message is built
    (no attachment, or an attachment file that can be read), [send_email]
    returns the failure text and not the success text, whatever the server
    does: [sendmail] refuses a list in which every recipient, that is none,
    was refused. *)
Theorem send_email_nobody_is_failure
    (L : email_lib) (fs : string → outcome (list byte))
    (S : Type) (srv : smtp_ops S) (self : Email) (subject body : string)
    (attachment : option string) (st : S) :
  attachment_readable fs attachment →
  ∃ st' e,
    send_email L fs srv self [] subject body attachment st
    = (st', Returned (failure_text L e)).
Proof.
  intros Hatt.
  destruct (build_message_returns L fs self [] subject body attachment Hatt)
    as [msg Hmsg].
  rewrite (send_email_built L fs srv _ _ _ _ _ msg st Hmsg).
  destruct (submit_nobody L srv self msg st) as (st' & e & ->). eauto.
Qed.

Lemma send_email_nobody_is_failure_witness :
  ∃ st' e,
    send_email Sample.lib Sample.fs Sample.accepting Sample.me [] "Test"
      "This is a test email." None Sample.idle
    = (st', Returned (failure_text Sample.lib e)).
Proof.
  apply (send_email_nobody_is_failure Sample.lib Sample.fs _ Sample.accepting
           Sample.me "Test" "This is a test email." None Sample.idle).
  left. reflexivity.
Defined.

(** ** C3: the message built without an attachment *)

(** C3: for a non-empty recipient list and any subject and body, the
    message built without an attachment has a [To] header equal to the
    recipients joined with a comma and a space, in their order, and one
    part, the body part, whose payload decodes to the bytes of the body. *)
Theorem build_message_to_and_body
    (L : email_lib) (fs : string → outcome (list byte)) (self : Email)
    (recipient_emails : list string) (subject body : string) :
  recipient_emails ≠ [] →
  ∃ msg part,
    build_message L fs self recipient_emails subject body None = Returned msg
    ∧ Msg.get msg "To" = Some (PyStr.join ", " recipient_emails)
    ∧ Msg.get_payload msg = PList [part]
    ∧ Msg.get_payload_decoded L part = Some (String.list_byte_of_string body).
Proof.
  intros _. eexists _, _. split; [by apply build_message_plain|].
  split_and!; [reflexivity..|]. apply get_payload_decoded_MIMEText.
Qed.

Lemma build_message_to_and_body_witness :
  ∃ msg part,
    build_message Sample.lib Sample.fs Sample.me
      ["a@example.org"; "b@example.org"] "Test" "This is a test email." None
    = Returned msg
    ∧ Msg.get msg "To" = Some "a@example.org, b@example.org"
    ∧ Msg.get_payload msg = PList [part]
    ∧ Msg.get_payload_decoded Sample.lib part
      = Some (String.list_byte_of_string "This is a test email.").
Proof.
  apply (build_message_to_and_body Sample.lib Sample.fs Sample.me
           ["a@example.org"; "b@example.org"] "Test" "This is a test email.").
  done.
Defined.

(** ** C4: search by body *)

(** C4, where the code departs from it: the inbox holds the message that
    [send_email] builds for the body ["This is a test email."]; the text of
    its body part holds the query ["test email"], and [get_emails_by_body]
    returns no message, because the payload of a multipart message is a
    list of parts and no [str] is a member of it. *)
Theorem get_emails_by_body_misses_multipart :
  build_message Sample.lib Sample.fs Sample.me ["you@example.org"] "Test"
    "This is a test email." None = Returned Examples.test_message
  ∧ Tree.payload_mentions "test email" Examples.test_message = true
  ∧ get_emails_by_body Imap.inbox_ops id Sample.me "test email"
      [Examples.test_message]
    = ([Examples.test_message], Returned []).
Proof. split_and!; reflexivity. Qed.

(** ** C5: the header mapping *)

(** C5, as stated, fails: the message [relayed] has two [Received]
    headers, and the mapping returned by [get_email_headers] holds the
    second one only. *)
Lemma get_email_headers_drops_repeats :
  ("Received", "from a.example.org") ∈ Msg.items Examples.relayed
  ∧ get_email_headers Examples.relayed !! "Received"
    = Some "from b.example.org"
  ∧ ¬ (∀ k v, (k, v) ∈ Msg.items Examples.relayed →
              get_email_headers Examples.relayed !! k = Some v).
Proof.
  assert (get_email_headers Examples.relayed !! "Received"
          = Some "from b.example.org") as Hlast
    by (by rewrite get_email_headers_lookup).
  split_and!; [by left|done|].
  intros Hall. specialize (Hall "Received" "from a.example.org").
  rewrite Hlast in Hall. discriminate Hall. by left.
Qed.

(** C5, amended: the mapping returned by [get_email_headers] has, under
    each header name (compared exactly), the value of the last header of
    that name in the message, and nothing under a name the message does
    not have. *)
Theorem get_email_headers_last_occurrence (email : message) (k : string) :
  get_email_headers email !! k = last_value k (Msg.items email).
Proof. apply get_email_headers_lookup. Qed.

(** ** C6: the body of a message *)


(** ** C7: the attachments of a message *)


(** ** C8: search by date *)

(** C8, where the code departs from it: on an inbox whose one message has
    no date header, nothing matches the query, and [get_emails_by_date]
    raises a [TypeError] instead of returning the empty list. *)
Theorem get_emails_by_date_raises_on_undated :
  Msg.get Examples.undated "Date" = None
  ∧ get_emails_by_date Imap.inbox_ops id Sample.me "2024" [Examples.undated]
    = ([Examples.undated],
       Raised (TypeError "argument of type 'NoneType' is not iterable")).
Proof. split; reflexivity. Qed.

(** ** C9: the file name of the attachment *)




(** The header written for [test.txt] reads back as [test.txt]. *)
Example test_txt_filename_reads_back :
  get_filename Sample.lib
    (Leaf [("Content-Disposition", "attachment; filename= test.txt")] "")
  = Some "test.txt".
Proof. reflexivity. Qed.

(** ** C10: termination of [get_email_body] *)

(** C10: when every multipart node of the tree has a sub-part,
    [get_email_body] returns: its result is the decoded payload of the
    leaf at the end of the first branch. The call on a multipart message
    recurses on a strictly smaller tree, and on a multipart message
    without sub-parts it raises [IndexError]. *)
Theorem get_email_body_total (L : email_lib) (email : message) :
  Tree.parts_nonempty email = true →
  (∃ h payload,
     Tree.first_leaf email = Some (Leaf h payload)
     ∧ get_email_body L email
       = Returned (Msg.get_payload_decoded L (Leaf h payload)))
  ∧ (∀ h part parts,
       email = Container h (part :: parts) →
       Tree.size part < Tree.size email)
  ∧ (∀ h, get_email_body L (Container h [])
          = Raised (IndexError "list index out of range")).
Proof.
  intros Hne. split_and!.
  - destruct (first_leaf_nonempty email Hne) as (h & payload & Hleaf).
    exists h, payload. split; [done|].
    by rewrite get_email_body_first_leaf, Hleaf.
  - intros h part parts ->. rewrite MsgFacts.size_container.
    rewrite fmap_cons. cbn [sum_list_with]. unfold id. lia.
  - done.
Qed.

Lemma get_email_body_total_witness :
  ∃ h payload,
    Tree.first_leaf Examples.nested = Some (Leaf h payload)
    ∧ get_email_body Sample.lib Examples.nested
      = Returned (Msg.get_payload_decoded Sample.lib (Leaf h payload)).
Proof.
  apply (get_email_body_total Sample.lib Examples.nested). reflexivity.
Defined.

(** * Further properties of the code *)

Section BuiltMessageFacts.
Context (L : email_lib) (fs : string → outcome (list byte)).
Import Msg Tree MsgFacts.

Lemma get_payload_decoded_attachment (h : string) (data : list byte) :
  get_payload_decoded L
    (Leaf [("Content-Type", "application/octet-stream");
           ("MIME-Version", "1.0");
           ("Content-Transfer-Encoding", "base64");
           ("Content-Disposition", h)]
          (Base64.body_encode data))
  = Some data.
Proof.
  unfold get_payload_decoded.
  match goal with
  | |- context [get ?m ?k] => change (get m k) with (Some "base64")
  end.
  cbn [default from_option]. change (PyStr.lower "base64") with "base64".
  rewrite decide_False, decide_True by done.
  by rewrite Base64Facts.body_encode_roundtrip.
Qed.

(** The shape of every message [build_message] returns. *)
Lemma build_message_shape (self : Email) (recipient_emails : list string)
    (subject body : string) (attachment : option string) (msg : message) :
  build_message L fs self recipient_emails subject body attachment
    = Returned msg →
  ∃ rest,
    msg = Container
            [("Content-Type", "multipart/mixed"); ("MIME-Version", "1.0");
             ("From", sender_email self);
             ("To", PyStr.join ", " recipient_emails);
             ("Subject", subject)]
            (MIMEText body :: rest)
    ∧ (truthy attachment = false → rest = [])
    ∧ (truthy attachment = true →
       ∃ data,
         fs (default "" attachment) = Returned data
         ∧ rest = [Leaf [("Content-Type", "application/octet-stream");
                         ("MIME-Version", "1.0");
                         ("Content-Transfer-Encoding", "base64");
                         ("Content-Disposition",
                          "attachment; filename= "
                          +:+ PyStr.last_piece
                                (PyStr.split "/" (default "" attachment)))]
                        (Base64.body_encode data)]).
Proof.
  destruct (truthy attachment) eqn:Hatt.
  - destruct attachment as [path|]; [|done].
    assert (path ≠ "") as Hpath.
    { intros ->. done. }
    destruct (fs path) as [data|e] eqn:Hfs.
    + rewrite (build_message_attached L fs _ _ _ _ _ _ Hpath Hfs).
      intros [= <-]. eexists. split; [done|]. split; [done|].
      intros _. exists data. split; [exact Hfs|done].
    + unfold build_message, attachment_part. rewrite Hatt.
      change (default "" (Some path)) with path. rewrite Hfs. done.
  - rewrite build_message_plain by done. intros [= <-].
    exists []. split_and!; done.
Qed.

End BuiltMessageFacts.

(** X1: the attachment part of the built message decodes to the bytes of
    the file: for a path that can be read, the message has two parts, the
    body part and an [application/octet-stream] part in base64 whose
    decoded payload is the file's content. *)
Theorem built_attachment_decodes_to_file
    (L : email_lib) (fs : string → outcome (list byte)) (self : Email)
    (recipient_emails : list string) (subject body path : string)
    (data : list byte) :
  path ≠ "" → fs path = Returned data →
  ∃ msg text_part part,
    build_message L fs self recipient_emails subject body (Some path)
      = Returned msg
    ∧ Msg.get_payload msg = PList [text_part; part]
    ∧ Msg.get part "Content-Type" = Some "application/octet-stream"
    ∧ Msg.get part "Content-Transfer-Encoding" = Some "base64"
    ∧ Msg.get_payload_decoded L part = Some data.
Proof.
  intros Hpath Hfs. eexists _, _, _.
  split; [by apply build_message_attached|].
  split_and!; [reflexivity..|]. apply get_payload_decoded_attachment.
Qed.

Lemma built_attachment_decodes_to_file_witness :
  ∃ msg text_part part,
    build_message Sample.lib Sample.fs Sample.me ["you@example.org"] "Test"
      "This is a test email." (Some "test.txt") = Returned msg
    ∧ Msg.get_payload msg = PList [text_part; part]
    ∧ Msg.get part "Content-Type" = Some "application/octet-stream"
    ∧ Msg.get part "Content-Transfer-Encoding" = Some "base64"
    ∧ Msg.get_payload_decoded Sample.lib part
      = Some [x48; x65; x6c; x6c; x6f].
Proof.
  apply (built_attachment_decodes_to_file Sample.lib Sample.fs Sample.me
           ["you@example.org"] "Test" "This is a test email." "test.txt").
  - done.
  - reflexivity.
Defined.

(** X2: [get_email_body] reads back the body that [send_email] put in:
    on the message built for [body], with or without an attachment, it
    returns the bytes of [body]. *)
Theorem get_email_body_of_built_message
    (L : email_lib) (fs : string → outcome (list byte)) (self : Email)
    (recipient_emails : list string) (subject body : string)
    (attachment : option string) (msg : message) :
  build_message L fs self recipient_emails subject body attachment
    = Returned msg →
  get_email_body L msg = Returned (Some (String.list_byte_of_string body)).
Proof.
  intros (rest & -> & _)%build_message_shape.
  cbn [get_email_body]. rewrite get_email_body_first_leaf.
  unfold Msg.MIMEText at 1.
  destruct (PyStr.is_ascii body) eqn:Hascii; cbn [Tree.first_leaf].
  - rewrite <- (get_payload_decoded_MIMEText L body) at 1.
    unfold Msg.MIMEText. by rewrite Hascii.
  - rewrite <- (get_payload_decoded_MIMEText L body) at 1.
    unfold Msg.MIMEText. by rewrite Hascii.
Qed.

Lemma get_email_body_of_built_message_witness :
  get_email_body Sample.lib
    (Container
       [("Content-Type", "multipart/mixed"); ("MIME-Version", "1.0");
        ("From", "me@example.org"); ("To", "you@example.org");
        ("Subject", "Test")]
       [Msg.MIMEText "This is a test email."])
  = Returned (Some (String.list_byte_of_string "This is a test email.")).
Proof.
  apply (get_email_body_of_built_message Sample.lib Sample.fs Sample.me
           ["you@example.org"] "Test" "This is a test email." None).
  reflexivity.
Defined.

(** X3: the accessors read back the fields that [send_email] set: on the
    built message the sender is the client's address, the recipient is the
    joined recipient list, the subject is the subject given, and there is
    neither a date nor a message identifier. *)
Theorem accessors_of_built_message
    (L : email_lib) (fs : string → outcome (list byte)) (self : Email)
    (recipient_emails : list string) (subject body : string)
    (attachment : option string) (msg : message) :
  build_message L fs self recipient_emails subject body attachment
    = Returned msg →
  get_email_sender msg = Some (sender_email self)
  ∧ get_email_recipient msg = Some (PyStr.join ", " recipient_emails)
  ∧ get_email_subject msg = Some subject
  ∧ get_email_date msg = None
  ∧ get_email_id msg = None.
Proof. intros (rest & -> & _)%build_message_shape. split_and!; reflexivity. Qed.

Lemma accessors_of_built_message_witness :
  get_email_sender Examples.test_message = Some "me@example.org"
  ∧ get_email_recipient Examples.test_message = Some "you@example.org"
  ∧ get_email_subject Examples.test_message = Some "Test"
  ∧ get_email_date Examples.test_message = None
  ∧ get_email_id Examples.test_message = None.
Proof.
  apply (accessors_of_built_message Sample.lib Sample.fs Sample.me
           ["you@example.org"] "Test" "This is a test email." None
           Examples.test_message).
  reflexivity.
Defined.



Section TreeFacts.
Context (L : email_lib).
Import Msg Tree MsgFacts.

Lemma filter_concat {A} (P : A → Prop) `{!∀ x, Decision (P x)}
    (ls : list (list A)) :
  filter P (concat ls) = concat (filter P <$> ls).
Proof.
  induction ls as [|l ls IH]; [done|].
  cbn [concat fmap list_fmap]. by rewrite filter_app, IH.
Qed.

End TreeFacts.


Section HeaderFacts.
Import Msg.

Lemma last_value_elem (k v : string) (hs : list (string * string)) :
  last_value k hs = Some v → (k, v) ∈ hs.
Proof.
  unfold last_value. intros Hfind.
  destruct (List.find _ (reverse hs)) as [[k' v']|] eqn:Hf; [|done].
  injection Hfind as ->. apply find_some in Hf as [Hin Hk].
  apply bool_decide_eq_true in Hk. cbn in Hk. subst k'.
  apply list_elem_of_In in Hin. by apply elem_of_reverse.
Qed.

Lemma last_value_is_Some (k v : string) (hs : list (string * string)) :
  (k, v) ∈ hs → is_Some (last_value k hs).
Proof.
  unfold last_value. intros Hin.
  destruct (List.find (λ kv, bool_decide (kv.1 = k)) (reverse hs))
    as [kv|] eqn:Hf; [by eexists|].
  assert (bool_decide ((k, v).1 = k) = false) as Hk.
  { apply (find_none _ _ Hf (k, v)).
    by apply list_elem_of_In, elem_of_reverse. }
  by rewrite bool_decide_true in Hk.
Qed.

Lemma headers_size_le (hs : list (string * string)) :
  size (foldl (λ (d : gmap string string) kv, <[kv.1 := kv.2]> d) ∅ hs)
  ≤ length hs.
Proof.
  induction hs as [|[k v] hs IH] using rev_ind; [done|].
  rewrite foldl_app, length_app. cbn [foldl length fst snd].
  rewrite map_size_insert.
  destruct (_ !! k); cbn; lia.
Qed.

Lemma nodup_fmap_eq {A B} (f : A → B) (l : list A) (x y : A) :
  NoDup (f <$> l) → x ∈ l → y ∈ l → f x = f y → x = y.
Proof.
  induction l as [|a l IH]; [by intros _ ?%elem_of_nil|].
  rewrite fmap_cons, NoDup_cons.
  intros [Ha Hl] [->|Hx]%elem_of_cons [->|Hy]%elem_of_cons Hf; auto.
  - exfalso. apply Ha. rewrite Hf. by apply list_elem_of_fmap_2.
  - exfalso. apply Ha. rewrite <- Hf. by apply list_elem_of_fmap_2.
Qed.

Lemma headers_size_nodup (hs : list (string * string)) :
  NoDup hs.*1 →
  size (foldl (λ (d : gmap string string) kv, <[kv.1 := kv.2]> d) ∅ hs)
  = length hs.
Proof.
  induction hs as [|[k v] hs IH] using rev_ind; [done|].
  rewrite fmap_app, NoDup_app. intros (Hhs & Hk & _).
  rewrite foldl_app, length_app. cbn [foldl length fst snd].
  rewrite map_size_insert, IH by done.
  assert (foldl (λ (d : gmap string string) kv, <[kv.1 := kv.2]> d) ∅ hs !! k
          = None) as ->; [|cbn; lia].
  pose proof (get_email_headers_lookup (Leaf hs "") k) as Hl.
  unfold get_email_headers in Hl. cbn [items headers] in Hl. rewrite Hl.
  destruct (last_value k hs) as [v'|] eqn:Hv; [|done].
  apply last_value_elem in Hv. exfalso. apply (Hk k).
  - by apply (list_elem_of_fmap_2 fst _ (k, v')).
  - cbn. by left.
Qed.

End HeaderFacts.

(** X7: the keys of the mapping are the header names of the message, and
    each entry is a header of the message: a name is a key exactly when
    some header has that name (compared exactly), the value under it is
    the value of one of the headers of that name, and the mapping has at
    most as many entries as the message has headers. *)
Theorem get_email_headers_keys (email : message) :
  (∀ k, is_Some (get_email_headers email !! k)
        ↔ ∃ v, (k, v) ∈ Msg.items email)
  ∧ (∀ k v, get_email_headers email !! k = Some v → (k, v) ∈ Msg.items email)
  ∧ size (get_email_headers email) ≤ length (Msg.items email).
Proof.
  split_and!.
  - intros k. rewrite get_email_headers_lookup. split.
    + intros [v Hv]. exists v. by apply last_value_elem.
    + intros [v Hv]. by apply (last_value_is_Some k v).
  - intros k v. rewrite get_email_headers_lookup. apply last_value_elem.
  - apply headers_size_le.
Qed.

(** X8: when no header name repeats, the mapping keeps every header: it
    has one entry for each header of the message, with the header's
    value. *)
Theorem get_email_headers_complete_without_repeats (email : message) :
  NoDup (Msg.items email).*1 →
  size (get_email_headers email) = length (Msg.items email)
  ∧ ∀ k v, (k, v) ∈ Msg.items email → get_email_headers email !! k = Some v.
Proof.
  intros Hnodup. split; [by apply headers_size_nodup|].
  intros k v Hin. rewrite get_email_headers_lookup.
  destruct (last_value_is_Some k v _ Hin) as [v' Hv']. rewrite Hv'.
  apply last_value_elem in Hv'. f_equal.
  assert ((k, v') = (k, v)) as [= ->]; [|done].
  by apply (nodup_fmap_eq fst (Msg.items email)).
Qed.

Lemma get_email_headers_complete_without_repeats_witness :
  size (get_email_headers Examples.undated) = length (Msg.items Examples.undated)
  ∧ ∀ k v, (k, v) ∈ Msg.items Examples.undated →
           get_email_headers Examples.undated !! k = Some v.
Proof.
  apply (get_email_headers_complete_without_repeats Examples.undated).
  apply (bool_decide_unpack _). vm_compute. reflexivity.
Defined.

(** X9: when no header name repeats, not even in another letter case, the
    accessors and the mapping agree: the value the mapping has under
    [Subject], [From], [To] or [Date] is the value the accessor returns. *)
Theorem accessors_agree_with_headers (email : message) :
  NoDup (PyStr.lower <$> (Msg.items email).*1) →
  (∀ v, get_email_headers email !! "Subject" = Some v →
        get_email_subject email = Some v)
  ∧ (∀ v, get_email_headers email !! "From" = Some v →
          get_email_sender email = Some v)
  ∧ (∀ v, get_email_headers email !! "To" = Some v →
          get_email_recipient email = Some v)
  ∧ (∀ v, get_email_headers email !! "Date" = Some v →
          get_email_date email = Some v).
Proof.
  intros Hnodup.
  assert (∀ name v, get_email_headers email !! name = Some v →
                    Msg.get email name = Some v) as Hget.
  { intros name v Hv. rewrite get_email_headers_lookup in Hv.
    apply last_value_elem in Hv. unfold Msg.get.
    destruct (List.find _ (Msg.headers email)) as [[k' v']|] eqn:Hf.
    - apply find_some in Hf as [Hin Hk].
      apply bool_decide_eq_true in Hk. cbn in Hk.
      apply list_elem_of_In in Hin.
      assert ((k', v') = (name, v)) as [= -> ->]; [|done].
      apply (nodup_fmap_eq (λ kv, PyStr.lower kv.1) (Msg.items email));
        [|done..].
      rewrite <- list_fmap_compose in Hnodup. exact Hnodup.
    - assert (bool_decide (PyStr.lower (name, v).1 = PyStr.lower name)
              = false) as Hk.
      { apply (find_none _ _ Hf (name, v)). by apply list_elem_of_In. }
      by rewrite bool_decide_true in Hk. }
  split_and!; intros v; apply Hget.
Qed.

Lemma accessors_agree_with_headers_witness :
  (∀ v, get_email_headers Examples.undated !! "Subject" = Some v →
        get_email_subject Examples.undated = Some v)
  ∧ (∀ v, get_email_headers Examples.undated !! "From" = Some v →
          get_email_sender Examples.undated = Some v)
  ∧ (∀ v, get_email_headers Examples.undated !! "To" = Some v →
          get_email_recipient Examples.undated = Some v)
  ∧ (∀ v, get_email_headers Examples.undated !! "Date" = Some v →
          get_email_date Examples.undated = Some v).
Proof.
  apply (accessors_agree_with_headers Examples.undated).
  apply (bool_decide_unpack _). vm_compute. reflexivity.
Defined.

Section MoreSearchFacts.
Context {Raw : Type} (message_from_bytes : Raw → message).
Import Msg SubstrFacts PyStrFacts.

Lemma contains_empty (s : string) : PyStr.contains "" s = true.
Proof. by destruct s. Qed.

Lemma contains_trans (q1 q2 s : string) :
  PyStr.contains q1 q2 = true → PyStr.contains q2 s = true →
  PyStr.contains q1 s = true.
Proof.
  rewrite !contains_spec. intros (a & b & ->) (c & d & ->).
  exists (c +:+ a), (b +:+ d). by rewrite !str_app_assoc.
Qed.

Lemma filter_sublist_impl {A} (P Q : A → Prop) `{!∀ x, Decision (P x)}
    `{!∀ x, Decision (Q x)} (l : list A) :
  (∀ x, P x → Q x) → filter P l `sublist_of` filter Q l.
Proof.
  intros HPQ. induction l as [|x l IH]; [done|].
  rewrite !filter_cons.
  destruct (decide (P x)) as [HP|HP].
  - rewrite decide_True by auto. by constructor.
  - case_decide; [by constructor|done].
Qed.

(** The loop of the three server-side searches, on a server that holds
    [mbox]: it returns the messages numbered [ids] when all the numbers
    are those of messages, and raises at the first that is not. *)
Lemma collect_loop (select : string → list Raw → list nat)
    (mbox : list Raw) (ids : list nat) (acc : list message) :
  io_for ids (collect_step (Servers.selecting select) message_from_bytes)
    acc mbox
  = (mbox,
     match mapM (numbered mbox) ids with
     | Some raws => Returned (acc ++ (message_from_bytes <$> raws))
     | None => Raised (IMAPError "FETCH command error: BAD")
     end).
Proof.
  revert acc. induction ids as [|i ids IH]; intros acc.
  - cbn. by rewrite app_nil_r.
  - cbn [io_for mapM]. unfold mbind at 1, io_mbind, io_bind.
    unfold collect_step at 1. unfold mbind at 1, io_mbind, io_bind.
    cbn [imap_fetch Servers.selecting Imap.inbox_ops].
    destruct i as [|j]; [done|]. cbn [numbered].
    destruct (mbox !! j) as [raw|]; [|done].
    unfold mret at 1, io_mret, io_ret. rewrite IH.
    cbn [mbind option_bind].
    destruct (mapM (numbered mbox) ids) as [raws|]; [|done].
    cbn. by rewrite <- app_assoc.
Qed.

Lemma is_ascii_app (s t : string) :
  PyStr.is_ascii (s +:+ t) = PyStr.is_ascii s && PyStr.is_ascii t.
Proof.
  induction s as [|c s IH]; [by rewrite str_app_nil_l|].
  rewrite str_app_cons. cbn [PyStr.is_ascii]. by rewrite IH, andb_assoc.
Qed.

(** The searches send the query between double quotes after a keyword:
    the criterion is ASCII when the query is. *)
Lemma is_ascii_criterion (keyword query : string) :
  PyStr.is_ascii keyword = true →
  PyStr.is_ascii (keyword +:+ dquote +:+ query +:+ dquote)
  = PyStr.is_ascii query.
Proof.
  intros Hk. rewrite !is_ascii_app, Hk.
  change (PyStr.is_ascii dquote) with true. cbn [andb].
  by rewrite andb_true_r.
Qed.

(** A login that [imaplib] can send reaches the server. *)
Lemma client_login_sendable {S : Type} (self : Email) (st : S) :
  sendable_login self →
  Servers.client_login (sender_email self) (sender_password self) st
  = (st, Returned ()).
Proof.
  intros (Hu & p & -> & Hp). unfold Servers.client_login, Servers.encode_arg.
  rewrite Hu, Hp. reflexivity.
Qed.

Lemma get_emails_by_body_served (self : Email) (body : string)
    (mbox : list Raw) :
  sendable_login self →
  get_emails_by_body Servers.inbox message_from_bytes self body mbox
  = (mbox, Returned (filter (λ m, body_matches body m = true)
                            (message_from_bytes <$> mbox))).
Proof.
  intros Hlogin. unfold get_emails_by_body, io_with.
  unfold mbind, io_mbind, io_bind.
  cbn -[io_for seq by_body_step Servers.client_login].
  rewrite client_login_sendable by done.
  cbn -[io_for seq by_body_step Servers.encode_arg].
  change (Servers.encode_arg "inbox" mbox) with (mbox, Returned ()).
  unfold mbind, io_mbind, io_bind.
  change (Servers.encode_arg "ALL" mbox) with (mbox, Returned ()).
  cbv beta iota. rewrite decide_True by done.
  change (by_body_step Servers.inbox message_from_bytes body)
    with (by_body_step Imap.inbox_ops message_from_bytes body).
  by rewrite (by_body_loop message_from_bytes body mbox (length mbox) 0 []).
Qed.

Lemma get_emails_by_date_served (self : Email) (date : string)
    (mbox : list Raw) :
  sendable_login self →
  ∃ r,
    get_emails_by_date Servers.inbox message_from_bytes self date mbox
    = (mbox, r)
    ∧ if forallb has_date (message_from_bytes <$> mbox)
      then r = Returned (filter (λ m, date_matches date m = true)
                                (message_from_bytes <$> mbox))
      else ∃ descr, r = Raised (TypeError descr).
Proof.
  intros Hlogin. unfold get_emails_by_date, io_with.
  unfold mbind, io_mbind, io_bind.
  cbn -[io_for seq forallb by_date_step Servers.client_login].
  rewrite client_login_sendable by done.
  cbn -[io_for seq forallb by_date_step Servers.encode_arg].
  change (Servers.encode_arg "inbox" mbox) with (mbox, Returned ()).
  unfold mbind, io_mbind, io_bind.
  change (Servers.encode_arg "ALL" mbox) with (mbox, Returned ()).
  cbv beta iota. rewrite decide_True by done.
  change (by_date_step Servers.inbox message_from_bytes date)
    with (by_date_step Imap.inbox_ops message_from_bytes date).
  destruct (by_date_loop message_from_bytes date mbox (length mbox) 0 [])
    as (r & -> & Hr); [done|].
  rewrite drop_0 in Hr.
  destruct (forallb _ _).
  - rewrite Hr. eauto.
  - destruct Hr as [descr ->]. eauto.
Qed.

(** A session on [Servers.selecting] that sends the criterion [criterion]
    and keeps what it fetches. *)
Lemma collect_session (select : string → list Raw → list nat)
    (self : Email) (criterion : string) (mbox : list Raw) :
  sendable_login self →
  io_with (imap_open (Servers.selecting select) (smtp_server self))
    (Imap.exit (Servers.selecting select)) (λ _,
      _ ← imap_login (Servers.selecting select) (sender_email self)
            (sender_password self);
      _ ← imap_select (Servers.selecting select) "inbox";
      email_ids ← imap_search (Servers.selecting select) criterion;
      io_for email_ids
        (collect_step (Servers.selecting select) message_from_bytes) [])
    mbox
  = (mbox,
     if PyStr.is_ascii criterion
     then fetch_all message_from_bytes mbox (select criterion mbox)
     else Raised (UnicodeEncodeError "'ascii' codec can't encode character")).
Proof.
  intros Hlogin. unfold io_with, fetch_all.
  unfold mbind, io_mbind, io_bind.
  cbn -[io_for collect_step Servers.client_login Servers.encode_arg].
  rewrite client_login_sendable by done.
  change (Servers.encode_arg "inbox" mbox) with (mbox, Returned ()).
  unfold mbind, io_mbind, io_bind, Servers.encode_arg.
  destruct (PyStr.is_ascii criterion); [|done].
  cbn -[io_for collect_step]. rewrite collect_loop.
  by destruct (mapM _ _).
Qed.

End MoreSearchFacts.











Section SessionFailure.
Context {S Id Raw : Type} (srv : imap_ops S Id Raw).
Context (message_from_bytes : Raw → message).

Lemma io_with_fails {A} (host : string) (self : Email)
    (rest : io S A) (st : S) :
  imap_session_fails srv self st →
  host = smtp_server self →
  ∃ st' e,
    io_with (imap_open srv host) (Imap.exit srv) (λ _,
      _ ← imap_login srv (sender_email self) (sender_password self); rest) st
    = (st', Raised e).
Proof.
  intros [st1 e Ho|st1 st2 e Ho Hl] ->; unfold io_with;
    unfold mbind, io_mbind, io_bind; rewrite Ho; [by eauto|].
  rewrite Hl. destruct (Imap.exit srv () st2) as [st3 [[]|e']]; eauto.
Qed.

End SessionFailure.

(** X15: the five searches let a failure of their session through: when
    the opening of the session or the authentication raises, each of them
    raises an exception to its caller and returns no list (there is no
    [try] around the session, unlike in [send_email]). *)
Theorem searches_raise_on_session_failure {S Id Raw : Type}
    (srv : imap_ops S Id Raw) (message_from_bytes : Raw → message)
    (self : Email) (query : string) (st : S) :
  imap_session_fails srv self st →
  (∃ st' e, get_emails_by_subject srv message_from_bytes self query st
            = (st', Raised e))
  ∧ (∃ st' e, get_emails_by_body srv message_from_bytes self query st
              = (st', Raised e))
  ∧ (∃ st' e, get_emails_by_date srv message_from_bytes self query st
              = (st', Raised e))
  ∧ (∃ st' e, get_emails_by_recipient srv message_from_bytes self query st
              = (st', Raised e))
  ∧ (∃ st' e, get_emails_by_sender srv message_from_bytes self query st
              = (st', Raised e)).
Proof.
  intros Hfail. split_and!; by apply io_with_fails.
Qed.

Lemma searches_raise_on_session_failure_witness :
  (∃ st' e, get_emails_by_subject Servers.rejecting id Sample.me "Test"
              [Examples.test_message] = (st', Raised e))
  ∧ (∃ st' e, get_emails_by_body Servers.rejecting id Sample.me "Test"
                [Examples.test_message] = (st', Raised e))
  ∧ (∃ st' e, get_emails_by_date Servers.rejecting id Sample.me "Test"
                [Examples.test_message] = (st', Raised e))
  ∧ (∃ st' e, get_emails_by_recipient Servers.rejecting id Sample.me "Test"
                [Examples.test_message] = (st', Raised e))
  ∧ (∃ st' e, get_emails_by_sender Servers.rejecting id Sample.me "Test"
                [Examples.test_message] = (st', Raised e)).
Proof.
  apply (searches_raise_on_session_failure Servers.rejecting id Sample.me
           "Test" [Examples.test_message]).
  eapply imap_fails_at_login; reflexivity.
Defined.

Section ServedFacts.
Context (L : email_lib) (fs : string → outcome (list byte)).
Context {S : Type} (srv : smtp_ops S) (code : string → Z).
Context (Hsrv : smtp_serves srv code).

Lemma dict_set_keys (d : list (string * (Z * string))) (k : string)
    (v : Z * string) :
  (Smtp.dict_set d k v).*1 = add_key d.*1 k.
Proof.
  unfold add_key. induction d as [|[k' v'] d IH]; [done|].
  cbn [Smtp.dict_set]. destruct (decide (k' = k)) as [->|Hne].
  - cbn. rewrite decide_True by left. done.
  - cbn [fmap list_fmap fst]. rewrite IH.
    destruct (decide (k ∈ d.*1)) as [Hin|Hnin].
    + rewrite decide_True by by right. done.
    + rewrite decide_False; [done|]. by intros [?|?]%elem_of_cons.
Qed.

Lemma rcpt_loop_served (recipients : list string)
    (d : list (string * (Z * string))) (st : S) :
  (∀ r, r ∈ recipients → code r ≠ 421%Z) →
  ∃ st' d',
    io_for recipients (Smtp.rcpt_step srv) d st = (st', Returned d')
    ∧ d'.*1 = refused_keys code d.*1 recipients.
Proof.
  revert d st. induction recipients as [|r rs IH]; intros d st Hok.
  - cbn. eauto.
  - cbn [io_for]. unfold mbind at 1, io_mbind, io_bind.
    unfold Smtp.rcpt_step at 1. unfold mbind at 1, io_mbind, io_bind.
    destruct (serves_rcpt _ _ Hsrv r st) as (st1 & resp & ->).
    rewrite (decide_False (P := code r = 421%Z)) by (apply Hok; by left).
    unfold mret at 1, io_mret, io_ret.
    destruct (IH (if decide (code r ≠ 250%Z ∧ code r ≠ 251%Z)
                  then Smtp.dict_set d r (code r, resp) else d) st1)
      as (st' & d' & -> & Hd'); [intros r' Hr'; apply Hok; by right|].
    exists st', d'. split; [done|]. rewrite Hd'. cbn [refused_keys foldl].
    unfold refused. case_decide.
    + rewrite bool_decide_true by done. by rewrite dict_set_keys.
    + by rewrite bool_decide_false by done.
Qed.

Lemma add_key_length (ks : list string) (k : string) :
  length (add_key ks k) ≤ Datatypes.S (length ks).
Proof. unfold add_key. case_decide; rewrite ?length_app; cbn; lia. Qed.

Lemma refused_keys_length (ks recipients : list string) :
  length (refused_keys code ks recipients)
  ≤ length ks + length (filter (λ r, refused (code r) = true) recipients).
Proof.
  revert ks. induction recipients as [|r rs IH]; intros ks; [cbn; lia|].
  cbn [refused_keys foldl]. rewrite filter_cons.
  fold (refused_keys code (if refused (code r) then add_key ks r else ks) rs).
  etrans; [apply IH|].
  destruct (refused (code r)) eqn:Hr.
  - rewrite decide_True by done. pose proof (add_key_length ks r).
    cbn [length]. lia.
  - rewrite decide_False by done. lia.
Qed.

Lemma filter_length_lt {A} (P : A → Prop) `{!∀ x, Decision (P x)}
    (l : list A) (x : A) :
  x ∈ l → ¬ P x → length (filter P l) < length l.
Proof.
  induction l as [|a l IH]; [by intros ?%elem_of_nil|].
  intros [->|Hx]%elem_of_cons Hnp; rewrite filter_cons.
  - rewrite decide_False by done. pose proof (length_filter P l). cbn. lia.
  - specialize (IH Hx Hnp). case_decide; cbn; lia.
Qed.

Lemma refused_keys_all (ks recipients : list string) :
  (∀ r, r ∈ recipients → refused (code r) = true) →
  NoDup (ks ++ recipients) →
  refused_keys code ks recipients = ks ++ recipients.
Proof.
  revert ks. induction recipients as [|r rs IH]; intros ks Hall Hnodup.
  - by rewrite app_nil_r.
  - cbn [refused_keys foldl]. rewrite Hall by left.
    fold (refused_keys code (add_key ks r) rs).
    assert (r ∉ ks) as Hr.
    { apply NoDup_app in Hnodup as (_ & Hdisj & _).
      intros Hin. apply (Hdisj r Hin). by left. }
    unfold add_key. rewrite decide_False by done.
    rewrite IH.
    + by rewrite <- app_assoc.
    + intros r' Hr'. apply Hall. by right.
    + by rewrite <- app_assoc.
Qed.

Lemma _rset_served (st : S) : ∃ st', Smtp._rset srv st = (st', Returned ()).
Proof.
  unfold Smtp._rset, io_catch. unfold mbind, io_mbind, io_bind.
  destruct (serves_rset _ _ Hsrv st) as (st' & reply & ->). eauto.
Qed.

Lemma exit_served (st : S) : ∃ st', Smtp.exit srv () st = (st', Returned ()).
Proof.
  unfold Smtp.exit, io_catch. unfold mbind, io_mbind, io_bind.
  destruct (serves_quit _ _ Hsrv st) as (st' & resp & ->).
  rewrite decide_False by (intros Hne; by apply Hne). eauto.
Qed.

(** [sendmail] on a server that answers every command. *)
Lemma sendmail_served (from_addr : string) (recipients : list string)
    (text : string) (st : S) :
  PyStr.is_ascii (Smtp._fix_eols text) = true →
  (∀ r, r ∈ recipients → code r ≠ 421%Z) →
  ∃ st' d,
    d.*1 = refused_keys code [] recipients
    ∧ Smtp.sendmail srv from_addr recipients text st
      = (st', if decide (length d = length recipients)
              then Raised (SMTPRecipientsRefused d) else Returned d).
Proof.
  intros Hascii Hok. unfold Smtp.sendmail. rewrite Hascii.
  unfold mbind at 1, io_mbind, io_bind.
  destruct (serves_ehlo _ _ Hsrv st) as (st1 & ->).
  unfold mbind at 1, io_mbind, io_bind. unfold mret at 1, io_mret, io_ret.
  unfold mbind at 1, io_mbind, io_bind.
  destruct (serves_mail _ _ Hsrv from_addr st1) as (st2 & resp & ->).
  rewrite (decide_False (P := 250%Z ≠ 250%Z)) by (intros Hne; by apply Hne).
  unfold mbind at 1, io_mbind, io_bind.
  destruct (rcpt_loop_served recipients [] st2 Hok) as (st3 & d & -> & Hd).
  exists (if decide (length d = length recipients)
          then (let (st4, _) := Smtp._rset srv st3 in st4)
          else (let (st4, _) := smtp_data srv (Smtp._fix_eols text) st3 in st4)),
         d.
  split; [done|]. case_decide.
  - unfold mbind at 1, io_mbind, io_bind.
    destruct (_rset_served st3) as (st4 & ->). done.
  - unfold mbind at 1, io_mbind, io_bind.
    destruct (serves_data _ _ Hsrv (Smtp._fix_eols text) st3)
      as (st4 & resp' & ->).
    by rewrite (decide_False (P := 250%Z ≠ 250%Z))
      by (intros Hne; by apply Hne).
Qed.

Lemma submit_served (self : Email) (recipients : list string)
    (msg : message) (text : string) (st : S) :
  as_string L msg = Returned text →
  PyStr.is_ascii (Smtp._fix_eols text) = true →
  (∀ r, r ∈ recipients → code r ≠ 421%Z) →
  ∃ st' d,
    d.*1 = refused_keys code [] recipients
    ∧ submit L srv self recipients msg st
      = (st', if decide (length d = length recipients)
              then Raised (SMTPRecipientsRefused d) else Returned ()).
Proof.
  intros Htext Hascii Hok. unfold submit, io_with.
  unfold io_bind at 1.
  destruct (serves_open _ _ Hsrv (smtp_server self) st) as (st1 & ->).
  unfold mbind at 1, io_mbind, io_bind.
  destruct (serves_login _ _ Hsrv (sender_email self) (sender_password self)
              st1) as (st2 & ->).
  unfold mbind at 1, io_mbind, io_bind, io_lift. rewrite Htext.
  unfold mbind at 1, io_mbind, io_bind.
  destruct (sendmail_served (sender_email self) recipients text st2 Hascii Hok)
    as (st3 & d & Hd & ->).
  destruct (exit_served st3) as (st4 & Hexit).
  exists st4, d. split; [done|].
  case_decide.
  - by rewrite Hexit.
  - unfold mret, io_mret, io_ret. by rewrite Hexit.
Qed.

End ServedFacts.





Section SuccessFacts.
Context (L : email_lib) (fs : string → outcome (list byte)).
Context {S : Type} (srv : smtp_ops S).

Lemma failure_text_is_not_success (e : exn) :
  failure_text L e ≠ "Email sent successfully.".
Proof. intros [=]. Qed.

Lemma sendmail_returned (from_addr : string) (recipients : list string)
    (text : string) (st st' : S) (d : list (string * (Z * string))) :
  Smtp.sendmail srv from_addr recipients text st = (st', Returned d) →
  recipients ≠ []
  ∧ ∃ st1 st2 resp,
      smtp_data srv (Smtp._fix_eols text) st1 = (st2, Returned (250%Z, resp)).
Proof.
  intros Hsend. split.
  - intros ->. destruct (sendmail_nobody srv from_addr text st) as (? & ? & Hr).
    congruence.
  - revert Hsend. unfold Smtp.sendmail. io_unfold.
    io_cases; intros; simplify_eq/=.
    destruct (PyStr.is_ascii (Smtp._fix_eols text)); simplify_eq/=.
    match goal with
    | H : smtp_data _ _ _ = (_, Returned (?c, _)) |- _ =>
        assert (c = 250%Z) as Hc by lia; rewrite Hc in H
    end.
    eauto.
Qed.

Lemma submit_returned (self : Email) (recipients : list string)
    (msg : message) (st st' : S) :
  submit L srv self recipients msg st = (st', Returned ()) →
  recipients ≠ []
  ∧ (∃ st1 st2,
       smtp_login srv (sender_email self) (sender_password self) st1
       = (st2, Returned ()))
  ∧ ∃ text st1 st2 resp,
      as_string L msg = Returned text
      ∧ smtp_data srv (Smtp._fix_eols text) st1
        = (st2, Returned (250%Z, resp)).
Proof.
  unfold submit, io_with. unfold io_bind at 1.
  destruct (smtp_open srv _ st) as [st1 [[]|e]]; [|done].
  unfold mbind at 1, io_mbind, io_bind.
  destruct (smtp_login srv _ _ st1) as [st2 [[]|e]] eqn:Hlogin.
  2:{ by destruct (Smtp.exit srv () st2) as [? [[]|?]]. }
  unfold mbind at 1, io_mbind, io_bind, io_lift.
  destruct (as_string L msg) as [text|e].
  2:{ by destruct (Smtp.exit srv () st2) as [? [[]|?]]. }
  unfold mbind at 1, io_mbind, io_bind.
  destruct (Smtp.sendmail srv _ recipients text st2) as [st3 [d|e]] eqn:Hsend.
  2:{ by destruct (Smtp.exit srv () st3) as [? [[]|?]]. }
  intros _. apply sendmail_returned in Hsend as (Hne & st4 & st5 & resp & Hd).
  split_and!; [done|by eauto|]. exists text. eauto.
Qed.

End SuccessFacts.

(** X18: the success text is returned only for a message the server took:
    if [send_email] returns ["Email sent successfully."], then the
    recipient list is not empty, the server accepted the login, and the
    server answered 250 to the DATA command that carried the flattened
    message (with CRLF line ends). *)
Theorem send_email_success_means_message_taken
    (L : email_lib) (fs : string → outcome (list byte))
    (S : Type) (srv : smtp_ops S) (self : Email)
    (recipient_emails : list string) (subject body : string)
    (attachment : option string) (st st' : S) :
  send_email L fs srv self recipient_emails subject body attachment st
    = (st', Returned "Email sent successfully.") →
  recipient_emails ≠ []
  ∧ (∃ st1 st2,
       smtp_login srv (sender_email self) (sender_password self) st1
       = (st2, Returned ()))
  ∧ ∃ msg text st1 st2 resp,
      build_message L fs self recipient_emails subject body attachment
        = Returned msg
      ∧ as_string L msg = Returned text
      ∧ smtp_data srv (Smtp._fix_eols text) st1
        = (st2, Returned (250%Z, resp)).
Proof.
  destruct (build_message L fs self recipient_emails subject body attachment)
    as [msg|e] eqn:Hmsg.
  2:{ unfold send_email. rewrite Hmsg. by io_unfold. }
  rewrite (send_email_built L fs srv _ _ _ _ _ msg st Hmsg).
  destruct (submit L srv self recipient_emails msg st) as [st1 [[]|e]]
    eqn:Hsubmit.
  2:{ intros Hbad. exfalso.
      assert (failure_text L e = "Email sent successfully.") as Heq
        by congruence.
      by apply failure_text_is_not_success in Heq. }
  intros _.
  apply submit_returned in Hsubmit
    as (Hne & Hlogin & text & st2 & st3 & resp & Htext & Hdata).
  split_and!; [done..|]. exists msg, text. eauto 6.
Qed.

Lemma send_email_success_means_message_taken_witness :
  ["you@example.org"] ≠ []
  ∧ (∃ st1 st2,
       smtp_login Sample.accepting (sender_email Sample.me)
         (sender_password Sample.me) st1 = (st2, Returned ()))
  ∧ ∃ msg text st1 st2 resp,
      build_message Sample.lib Sample.fs Sample.me ["you@example.org"] "Test"
        "This is a test email." None = Returned msg
      ∧ as_string Sample.lib msg = Returned text
      ∧ smtp_data Sample.accepting (Smtp._fix_eols text) st1
        = (st2, Returned (250%Z, resp)).
Proof.
  eapply (send_email_success_means_message_taken Sample.lib Sample.fs _
            Sample.accepting Sample.me ["you@example.org"] "Test"
            "This is a test email." None Sample.idle).
  vm_compute. reflexivity.
Defined.

(** X19: an attachment that cannot be read stops [send_email] before any
    session: for a path that is not empty and that the file system refuses
    with [e], the call raises [e] and the state of the server is the one
    before the call, whatever the recipients, subject and body. *)
Theorem send_email_unreadable_attachment_opens_no_session
    (L : email_lib) (fs : string → outcome (list byte))
    (S : Type) (srv : smtp_ops S) (self : Email)
    (recipient_emails : list string) (subject body path : string) (e : exn)
    (st : S) :
  path ≠ "" → fs path = Raised e →
  send_email L fs srv self recipient_emails subject body (Some path) st
  = (st, Raised e).
Proof. apply send_email_file_error_propagates. Qed.

Lemma send_email_unreadable_attachment_opens_no_session_witness :
  send_email Sample.lib Sample.fs Sample.accepting Sample.me
    ["you@example.org"] "Test" "This is a test email." (Some "missing.txt")
    Sample.idle
  = (Sample.idle,
     Raised (OSError "[Errno 2] No such file or directory: 'missing.txt'")).
Proof.
  apply (send_email_unreadable_attachment_opens_no_session Sample.lib
           Sample.fs _ Sample.accepting Sample.me ["you@example.org"] "Test"
           "This is a test email." "missing.txt").
  - done.
  - reflexivity.
Defined.

(** X20: the file name written into the attachment's header is the part
    of the path after its last [/]: for a name without [/] and a path that
    is [name] alone or [dir/name], whatever [dir] is, the header of the
    attachment part is ["attachment; filename= "] followed by [name]; and a
    path that ends in [/] has the empty name. *)
Theorem attachment_header_names_the_file
    (L : email_lib) (fs : string → outcome (list byte))
    (path dir name : string) (data : list byte) :
  PyStr.has_char "/" name = false →
  path = name ∨ path = dir +:+ "/" +:+ name →
  fs path = Returned data →
  (∃ part,
     attachment_part L fs path = Returned part
     ∧ Msg.get part "Content-Disposition"
       = Some ("attachment; filename= " +:+ name))
  ∧ PyStr.last_piece (PyStr.split "/" (dir +:+ "/")) = "".
Proof.
  intros Hname Hpath Hfs. split.
  - rewrite (attachment_part_readable L fs _ _ Hfs).
    eexists. split; [done|]. unfold PyStr.split.
    destruct Hpath as [->| ->].
    + by rewrite (split_go_plain "/" "" name Hname).
    + change ("/" +:+ name) with (String "/" name).
      by rewrite (split_go_last_app "/" "" dir name Hname).
  - unfold PyStr.split. by apply (split_go_last_app "/" "" dir "").
Qed.

Lemma attachment_header_names_the_file_witness :
  (∃ part,
     attachment_part Sample.lib (λ _, Returned [x48; x65; x6c; x6c; x6f])
       "reports/2024/test.txt" = Returned part
     ∧ Msg.get part "Content-Disposition"
       = Some ("attachment; filename= " +:+ "test.txt"))
  ∧ PyStr.last_piece (PyStr.split "/" ("reports/2024" +:+ "/")) = "".
Proof.
  apply (attachment_header_names_the_file Sample.lib
           (λ _, Returned [x48; x65; x6c; x6c; x6f])
           "reports/2024/test.txt" "reports/2024" "test.txt"
           [x48; x65; x6c; x6c; x6f]).
  - reflexivity.
  - right. reflexivity.
  - reflexivity.
Defined.

Section ScriptFacts.
Context {S Id Raw : Type} (srv : imap_ops S Id Raw).

(** The loop of the script's search returns only when there is nothing to
    fetch. *)
Lemma rebound_loop_returns (ids : list Id) (acc emails : list message)
    (st st' : S) :
  io_for ids (rebound_step srv) acc st = (st', Returned emails) →
  ids = [] ∧ emails = acc.
Proof.
  destruct ids as [|i ids]; cbn [io_for].
  - by intros [= _ <-].
  - unfold mbind at 1, io_mbind, io_bind. unfold rebound_step at 1.
    unfold mbind, io_mbind, io_bind, io_raise.
    by destruct (imap_fetch srv i st) as [st1 [raw|e]].
Qed.

Lemma script_search_returns_nothing (self : Email) (subject : string)
    (st st' : S) (emails : list message) :
  script_get_emails_by_subject srv self subject st = (st', Returned emails) →
  emails = [].
Proof.
  unfold script_get_emails_by_subject, io_with.
  unfold mbind, io_mbind, io_bind.
  destruct (imap_open srv _ st) as [sa [[]|e]]; [|done].
  destruct (imap_login srv _ _ sa) as [sb [[]|e]];
    [|by destruct (Imap.exit srv () sb) as [sf [[]|e']]].
  destruct (imap_select srv _ sb) as [sc [[]|e]];
    [|by destruct (Imap.exit srv () sc) as [sf [[]|e']]].
  destruct (imap_search srv _ sc) as [sd [ids|e]];
    [|by destruct (Imap.exit srv () sd) as [sf [[]|e']]].
  destruct (io_for ids (rebound_step srv) [] sd) as [se [l|e]] eqn:Hloop;
    [|by destruct (Imap.exit srv () se) as [sf [[]|e']]].
  apply rebound_loop_returns in Hloop as [_ ->].
  destruct (Imap.exit srv () se) as [sf [[]|e']]; [|done].
  by intros [= _ <-].
Qed.

(** Once a message is fetched the search ends with the [AttributeError] of
    the look-up, or with the exception of the logout that follows it. *)
Lemma script_search_fetched (self : Email) (subject : string)
    (st sa sb sc sd se : S) (i : Id) (ids : list Id) (raw : Raw) :
  imap_open srv (smtp_server self) st = (sa, Returned ()) →
  imap_login srv (sender_email self) (sender_password self) sa
    = (sb, Returned ()) →
  imap_select srv "inbox" sb = (sc, Returned ()) →
  imap_search srv ("SUBJECT " +:+ Msg.dquote +:+ subject +:+ Msg.dquote) sc
    = (sd, Returned (i :: ids)) →
  imap_fetch srv i sd = (se, Returned raw) →
  ∃ sf e,
    script_get_emails_by_subject srv self subject st = (sf, Raised e)
    ∧ (e = AttributeError
             "'Email' object has no attribute 'message_from_bytes'"
       ∨ Imap.exit srv () se = (sf, Raised e)).
Proof.
  intros Ho Hl Hs Hq Hf.
  unfold script_get_emails_by_subject, io_with.
  unfold mbind, io_mbind, io_bind. rewrite Ho, Hl, Hs, Hq.
  cbn [io_for]. unfold mbind at 1, io_mbind, io_bind.
  unfold rebound_step at 1. unfold mbind, io_mbind, io_bind, io_raise.
  rewrite Hf.
  destruct (Imap.exit srv () se) as [sf [[]|e']]; eauto.
Qed.

End ScriptFacts.

(** X21: the script stops before any network activity when an address is
    missing or [test.txt] cannot be read: if [--from_email] or
    [--to_email] is absent or empty, or the file system refuses
    [test.txt], the script ends with an error and the states of both
    servers are those before it; a missing sender address is reported
    first, by a [ValueError]. *)
Theorem main_stops_before_the_network
    (L : email_lib) (fs : string → outcome (list byte))
    (environ : gmap string string)
    (S1 : Type) (smtp : smtp_ops S1)
    (S2 Id Raw : Type) (imap : imap_ops S2 Id Raw)
    (from_email to_email : option string) (st : S1 * S2) :
  truthy from_email = false ∨ truthy to_email = false
  ∨ (∃ e, fs "test.txt" = Raised e) →
  ∃ err,
    main L fs environ smtp imap from_email to_email st = (st, inl err)
    ∧ (truthy from_email = false →
       err = ValueError "Please provide the email address of the sender.")
    ∧ (truthy from_email = true → truthy to_email = false →
       err = ValueError "Please provide the email address of the recipient.").
Proof.
  intros Hstop. unfold main.
  destruct (truthy from_email) eqn:Hfrom;
    [|eexists; split_and!; done].
  destruct (truthy to_email) eqn:Hto;
    [|eexists; split_and!; done]. cbn [negb].
  destruct Hstop as [?|[?|[e Hfs]]]; [done..|].
  rewrite (send_email_file_error_propagates L fs smtp _ _ _ _ "test.txt" e)
    by done.
  destruct st as [st1 st2]. eexists; split_and!; done.
Qed.

Lemma main_stops_before_the_network_witness :
  ∃ err,
    main Sample.lib Sample.fs ∅ Sample.accepting
      (Imap.inbox_ops (Raw := message)) None (Some "you@example.org")
      (Sample.idle, [])
      = ((Sample.idle, []), inl err)
    ∧ (truthy None = false →
       err = ValueError "Please provide the email address of the sender.")
    ∧ (truthy None = true → truthy (Some "you@example.org") = false →
       err = ValueError "Please provide the email address of the recipient.").
Proof.
  apply (main_stops_before_the_network Sample.lib Sample.fs ∅ _
           Sample.accepting _ _ _ (Imap.inbox_ops (Raw := message)) None
           (Some "you@example.org") (Sample.idle, [])).
  left. reflexivity.
Defined.

(** X22: the script searches whether or not the send succeeded, and its
    search never returns a message. With both addresses given and
    [test.txt] readable, [send_email] returns a text, the script drops it
    and runs the search by subject for ["Test"] with the name [email]
    bound to the [Email] object (line 332): the script ends as that search
    ends. It ends with a list only when the list is empty; once the
    session is open and the server has answered the search with a number
    and the fetch of the first number with a message, it ends with an
    exception, the [AttributeError] of [email.message_from_bytes] or the
    exception of the logout. *)
Theorem main_searches_whatever_the_send_returned
    (L : email_lib) (fs : string → outcome (list byte))
    (environ : gmap string string)
    (S1 : Type) (smtp : smtp_ops S1)
    (S2 Id Raw : Type) (imap : imap_ops S2 Id Raw)
    (sender recipient : string) (data : list byte) (st1 : S1) (st2 : S2) :
  sender ≠ "" → recipient ≠ "" → fs "test.txt" = Returned data →
  ∃ st1' text,
    send_email L fs smtp (Email_init environ sender "smtp.gmail.com")
      [recipient] "Test" "This is a test email." (Some "test.txt") st1
      = (st1', Returned text)
    ∧ main L fs environ smtp imap (Some sender) (Some recipient) (st1, st2)
      = match script_get_emails_by_subject imap
                (Email_init environ sender "smtp.gmail.com") "Test" st2 with
        | (st2', Returned emails) => ((st1', st2'), inr emails)
        | (st2', Raised e) => ((st1', st2'), inl (Uncaught e))
        end
    ∧ (∀ st' emails,
         main L fs environ smtp imap (Some sender) (Some recipient) (st1, st2)
           = (st', inr emails) →
         emails = [])
    ∧ (∀ sa sb sc sd se i ids raw,
         imap_open imap "smtp.gmail.com" st2 = (sa, Returned ()) →
         imap_login imap sender (environ !! "EMAIL_PASSWORD") sa
           = (sb, Returned ()) →
         imap_select imap "inbox" sb = (sc, Returned ()) →
         imap_search imap
           ("SUBJECT " +:+ Msg.dquote +:+ "Test" +:+ Msg.dquote) sc
           = (sd, Returned (i :: ids)) →
         imap_fetch imap i sd = (se, Returned raw) →
         ∃ sf e,
           main L fs environ smtp imap (Some sender) (Some recipient)
             (st1, st2)
             = ((st1', sf), inl (Uncaught e))
           ∧ (e = AttributeError
                    "'Email' object has no attribute 'message_from_bytes'"
              ∨ Imap.exit imap () se = (sf, Raised e))).
Proof.
  intros Hsender Hrecipient Hfs. unfold main. cbn [truthy].
  rewrite !bool_decide_false by done. cbn [negb fst snd].
  change (default "" (Some sender)) with sender.
  change (default "" (Some recipient)) with recipient.
  destruct (build_message_returns L fs
              (Email_init environ sender "smtp.gmail.com") [recipient]
              "Test" "This is a test email." (Some "test.txt"))
    as [msg Hmsg]; [right; by exists data|].
  rewrite (send_email_built L fs smtp _ _ _ _ _ msg st1 Hmsg).
  assert (∃ st1' text,
            match submit L smtp (Email_init environ sender "smtp.gmail.com")
                    [recipient] msg st1 with
            | (st', Returned _) => (st', Returned "Email sent successfully.")
            | (st', Raised e) => (st', Returned (failure_text L e))
            end = (st1', Returned text)) as (st1' & text & ->)
    by (destruct (submit _ _ _ _ _ _) as [st' [[]|e]]; eauto).
  exists st1', text. split; [done|]. split; [|split].
  - by destruct (script_get_emails_by_subject _ _ _ _) as [st2' [emails|e]].
  - intros st' emails.
    destruct (script_get_emails_by_subject _ _ _ _) as [st2' [l|e]] eqn:Hs;
      [|done].
    intros [= _ <-]. by apply script_search_returns_nothing in Hs.
  - intros sa sb sc sd se i ids raw Ho Hl Hsel Hq Hf.
    destruct (script_search_fetched imap
                (Email_init environ sender "smtp.gmail.com") "Test"
                st2 sa sb sc sd se i ids raw Ho Hl Hsel Hq Hf)
      as (sf & e & -> & He).
    eauto.
Qed.

Lemma main_searches_whatever_the_send_returned_witness :
  ∃ st1' text,
    send_email Sample.lib Sample.fs Sample.rejecting_login
      (Email_init {[ "EMAIL_PASSWORD" := "secret" ]} "me@example.org"
         "smtp.gmail.com")
      ["you@example.org"] "Test" "This is a test email." (Some "test.txt")
      Sample.idle
      = (st1', Returned text)
    ∧ main Sample.lib Sample.fs {[ "EMAIL_PASSWORD" := "secret" ]}
        Sample.rejecting_login
        (Servers.selecting (Raw := message) (λ _ mbox, seq 1 (length mbox)))
        (Some "me@example.org") (Some "you@example.org")
        (Sample.idle, [Examples.test_message])
      = ((st1', [Examples.test_message]),
         inl (Uncaught
                (AttributeError
                   "'Email' object has no attribute 'message_from_bytes'"))).
Proof.
  destruct (main_searches_whatever_the_send_returned Sample.lib Sample.fs
              {[ "EMAIL_PASSWORD" := "secret" ]} _
              Sample.rejecting_login _ _ _
              (Servers.selecting (Raw := message)
                 (λ _ mbox, seq 1 (length mbox)))
              "me@example.org" "you@example.org" [x48; x65; x6c; x6c; x6f]
              Sample.idle [Examples.test_message])
    as (st1' & text & Hsend & Hmain & _).
  - done.
  - done.
  - reflexivity.
  - exists st1', text. split; [exact Hsend|exact Hmain].
Defined.
